(** * PRS FinSight: the holdings engine ([compute_holdings], app.py) and the
      price gateway ([price_snapshot], pricing.py), embedded in Rocq,
      with the Dashboard metrics and the news helpers of app.py, the
      tables of db.py, [history] of pricing.py and the cache of amfi.py.

    Conventions of the embedding.

    - A pandas [DataFrame] is the list of its rows, in row order; a column
      derived row by row (signed_units, cost, value, pnl, ...) is a function
      of the row.
    - The REAL columns (units, price, fees and everything computed from
      them) are exact rationals ([Qc], canonical fractions, so that equality
      of numbers is plain equality).  Rounding and overflow of binary64 are
      outside the model.
    - A missing value ([None] in pricing.py, [NaN] after a left merge or an
      arithmetic operation on a missing value) is [None] of an [option].
    - A Python [str] is a [string]; [str.upper] acts on the letters a-z. *)

From Stdlib Require Import List String Ascii Bool ZArith NArith QArith Qcanon.
From Stdlib Require Import Permutation Sorted OrderedTypeEx Lia.
Import ListNotations.

(* ------------------------------------------------------------------ *)
(** ** Numbers *)

Module Num.

Definition real := Qc.

(** An integer literal of the source read as a real. *)
Definition lit (z : Z) : real := Q2Qc (inject_Z z).

(** [x > 0] as in [net["total_units"]>0] and [out["avg_cost"]>0]. *)
Definition gt0 (x : real) : bool :=
  match Qccompare 0%Qc x with Lt => true | _ => false end.

(** [x != 0] *)
Definition nonzero (x : real) : bool :=
  if Qc_eq_dec x 0%Qc then false else true.

(** The [sum] aggregation of a group. *)
Definition total (xs : list real) : real := fold_right Qcplus 0%Qc xs.

End Num.

(* ------------------------------------------------------------------ *)
(** ** The pandas operations the engine uses *)

Module Pandas.

(** [str.upper] on one character. *)
Definition upper_char (c : ascii) : ascii :=
  let n := N_of_ascii c in
  if (97 <=? n)%N && (n <=? 122)%N then ascii_of_N (n - 32) else c.

(** [Series.str.upper] on one cell. *)
Fixpoint str_upper (s : string) : string :=
  match s with
  | EmptyString => EmptyString
  | String c r => String (upper_char c) (str_upper r)
  end.

(** [DataFrame.empty] for a frame that has its columns. *)
Definition empty {A} (df : list A) : bool :=
  match df with [] => true | _ :: _ => false end.

(** Stable insertion sort, the order a sorted [groupby] and
    [sort_values] produce on their keys.  pandas does not promise the
    relative order of rows with equal keys under [sort_values]; the model
    keeps them in input order. *)
Fixpoint insert_by {A} (le : A -> A -> bool) (x : A) (l : list A) : list A :=
  match l with
  | [] => [x]
  | y :: r => if le x y then x :: l else y :: insert_by le x r
  end.

Definition sort_by {A} (le : A -> A -> bool) (l : list A) : list A :=
  fold_right (insert_by le) [] l.

(** The compound key of [groupby(["symbol","asset_type"])]. *)
Definition key := (string * string)%type.

Definition key_eqb (a b : key) : bool :=
  String.eqb (fst a) (fst b) && String.eqb (snd a) (snd b).

(** Keys are ordered column by column, strings by code point. *)
Definition key_leb (a b : key) : bool :=
  match String.compare (fst a) (fst b) with
  | Lt => true
  | Eq => String.leb (snd a) (snd b)
  | Gt => false
  end.

(** The distinct values of a key column, in order of first appearance
    (what pandas' factorization of the keys yields). *)
Definition uniques (ks : list key) : list key :=
  fold_left (fun seen k => if existsb (key_eqb k) seen then seen else seen ++ [k])
            ks [].

(** The group labels of [df.groupby(keys)]: the distinct keys, sorted. *)
Definition group_keys {A} (kf : A -> key) (df : list A) : list key :=
  sort_by key_leb (uniques (map kf df)).

(** The rows of one group, in frame order. *)
Definition group {A} (kf : A -> key) (k : key) (df : list A) : list A :=
  filter (fun r => key_eqb (kf r) k) df.

(** [df.groupby(keys, as_index=False).agg(out=(col,"sum"))]: one row per
    group label, carrying the sum of the column over the group. *)
Definition groupby_sum {A} (kf : A -> key) (col : A -> Num.real)
    (df : list A) : list (key * Num.real) :=
  map (fun k => (k, Num.total (map col (group kf k df)))) (group_keys kf df).

(** [left.merge(right, on=..., how="left")]: every left row, in order,
    paired with each right row of equal key, in right order; a left row
    without a match is kept once, with the right columns missing. *)
Definition merge_left {L R K} (eqb : K -> K -> bool)
    (kl : L -> K) (kr : R -> K) (left : list L) (right : list R)
    : list (L * option R) :=
  flat_map
    (fun l =>
       let ms := filter (fun r => eqb (kl l) (kr r)) right in
       if empty ms then [(l, None)] else map (fun r => (l, Some r)) ms)
    left.

(** [fillna] of one numeric cell. *)
Definition fillna (d : Num.real) (x : option Num.real) : Num.real :=
  match x with Some v => v | None => d end.

End Pandas.

(* ------------------------------------------------------------------ *)
(** ** pricing.py *)

Module Pricing.

(** What the body of the [try] in [price_snapshot] gets from yfinance for
    one symbol: an exception anywhere in the block, or the column
    [hist["Close"].dropna()]. *)
Inductive history :=
| Raises
| Closes (close : list Num.real).

(** The market at the time of a call: what yfinance answers per symbol,
    the same answer each time the symbol is asked during that call. *)
Definition market := string -> history.

(** One row of the frame [price_snapshot] returns. *)
Record snap := {
  symbol  : string;
  last    : option Num.real;
  prev    : option Num.real;
  chg     : option Num.real;
  chg_pct : option Num.real
}.

(** [close.iloc[-1-i]] when the series is long enough. *)
Definition iloc_back (close : list Num.real) (i : nat) : option Num.real :=
  nth_error (rev close) i.

(** The body of the [try] for one symbol: the row to append, or the
    exception that escapes the block. *)
Definition try_row (yf : market) (s : string) : option snap :=
  match yf s with
  | Raises => None
  | Closes close =>
      let last := iloc_back close 0 in
      let prev := iloc_back close 1 in
      let chg :=
        match last, prev with
        | Some l, Some p => Some (l - p)%Qc
        | _, _ => None
        end in
      let chg_pct :=
        match last, prev with
        | Some l, Some p =>
            if Num.nonzero p
            then Some ((l / p - 1) * Num.lit 100)%Qc
            else None
        | _, _ => None
        end in
      Some {| symbol := s; last := last; prev := prev;
              chg := chg; chg_pct := chg_pct |}
  end.

(** The row of the [except Exception] branch. *)
Definition failed_row (s : string) : snap :=
  {| symbol := s; last := None; prev := None; chg := None; chg_pct := None |}.

(** One turn of the loop: [try ... except Exception ...]. *)
Definition snapshot_row (yf : market) (s : string) : snap :=
  match try_row yf s with
  | Some r => r
  | None => failed_row s
  end.

(** [price_snapshot(symbols)]: the loop appends one row per element of
    [symbols], in order.  For the empty list the frame has no rows and no
    columns. *)
Definition price_snapshot (yf : market) (symbols : list string) : list snap :=
  fold_left (fun out s => out ++ [snapshot_row yf s]) symbols [].

End Pricing.

(* ------------------------------------------------------------------ *)
(** ** app.py: [compute_holdings] *)

Module App.

Import Pandas.

(** A row of the [transactions] table, as [fetch_tx] reads it. *)
Record transaction := {
  id         : Z;
  user_id    : Z;
  date       : string;
  symbol     : string;
  asset_type : string;
  txn_type   : string;
  units      : Num.real;
  price      : Num.real;
  fees       : Num.real;
  account    : string
}.

(** A row of [net] once [avg_cost] and [invested] are set. *)
Module Net.
Record t := {
  symbol     : string;
  asset_type : string;
  units      : Num.real;
  avg_cost   : Num.real;
  invested   : Num.real
}.
End Net.

(** A row of the frame [compute_holdings] returns. *)
Module Position.
Record t := {
  symbol     : string;
  asset_type : string;
  units      : Num.real;
  avg_cost   : Num.real;
  invested   : Num.real;
  last       : option Num.real;
  value      : option Num.real;
  pnl        : option Num.real;
  pnl_pct    : option Num.real
}.
End Position.

(** *** Effects: exceptions and the calls made to [price_snapshot] *)

Inductive exn :=
| KeyError (columns : list string).

(** The arguments of the calls to [price_snapshot], oldest first. *)
Definition calls := list (list string).

Definition M (A : Type) : Type := calls -> (exn + A) * calls.

Definition ret {A} (a : A) : M A := fun log => (inr a, log).

Definition raise {A} (e : exn) : M A := fun log => (inl e, log).

Definition bind {A B} (m : M A) (k : A -> M B) : M B :=
  fun log =>
    match m log with
    | (inl e, log') => (inl e, log')
    | (inr a, log') => k a log'
    end.

Notation "x <- m ;; k" := (bind m (fun x => k))
  (at level 100, m at next level, right associativity).

(** A call [price_snapshot(symbols)] made by the engine. *)
Definition call_price_snapshot (yf : Pricing.market) (symbols : list string)
    : M (list Pricing.snap) :=
  fun log => (inr (Pricing.price_snapshot yf symbols), log ++ [symbols]).

(** [snaps[["symbol","last"]]]: a frame built from an empty list of
    records has no columns, and selecting them raises [KeyError]. *)
Definition select_symbol_last (snaps : list Pricing.snap)
    : M (list (string * option Num.real)) :=
  match snaps with
  | [] => raise (KeyError ["symbol"; "last"]%string)
  | _ :: _ => ret (map (fun r => (Pricing.symbol r, Pricing.last r)) snaps)
  end.

Definition run {A} (m : M A) : (exn + A) * calls := m [].

(** *** The steps of [compute_holdings] *)

Definition with_symbol (s : string) (t : transaction) : transaction :=
  {| id := id t; user_id := user_id t; date := date t; symbol := s;
     asset_type := asset_type t; txn_type := txn_type t; units := units t;
     price := price t; fees := fees t; account := account t |}.

Definition with_txn_type (k : string) (t : transaction) : transaction :=
  {| id := id t; user_id := user_id t; date := date t; symbol := symbol t;
     asset_type := asset_type t; txn_type := k; units := units t;
     price := price t; fees := fees t; account := account t |}.

(** [df["symbol"] = df["symbol"].str.upper()] *)
Definition upper_symbol (t : transaction) : transaction :=
  with_symbol (str_upper (symbol t)) t.

(** [df.loc[df["txn_type"]=="SIP","txn_type"]="BUY"] *)
Definition sip_to_buy (t : transaction) : transaction :=
  if String.eqb (txn_type t) "SIP" then with_txn_type "BUY" t else t.

(** [df["signed_units"]] *)
Definition signed_units (t : transaction) : Num.real :=
  if String.eqb (txn_type t) "SELL" then (- units t)%Qc
  else if String.eqb (txn_type t) "BUY" then units t
  else 0%Qc.

(** [df["txn_type"]=="BUY"] *)
Definition is_buy (t : transaction) : bool := String.eqb (txn_type t) "BUY".

(** [buys["cost"]] *)
Definition cost (t : transaction) : Num.real :=
  (units t * price t + fees t)%Qc.

Definition tx_key (t : transaction) : key := (symbol t, asset_type t).

(** A group label together with the BUY totals merged onto it. *)
Definition net_row (m : (key * Num.real) * option (key * (Num.real * Num.real)))
    : Net.t :=
  let total_units := fillna 0%Qc (option_map (fun c => fst (snd c)) (snd m)) in
  let total_cost  := fillna 0%Qc (option_map (fun c => snd (snd c)) (snd m)) in
  {| Net.symbol := fst (fst (fst m));
     Net.asset_type := snd (fst (fst m));
     Net.units := snd (fst m);
     Net.avg_cost :=
       if Num.gt0 total_units then (total_cost / total_units)%Qc else 0%Qc;
     Net.invested := total_cost |}.

(** [net], from the normalized frame [df]. *)
Definition net_frame (df : list transaction) : list Net.t :=
  let buys := filter is_buy df in
  let net := groupby_sum tx_key signed_units df in
  if empty buys then
    map (fun g =>
           {| Net.symbol := fst (fst g); Net.asset_type := snd (fst g);
              Net.units := snd g;
              Net.avg_cost := 0%Qc; Net.invested := 0%Qc |})
        net
  else
    let cost :=
      map (fun k => (k, (Num.total (map units (group tx_key k buys)),
                         Num.total (map cost (group tx_key k buys)))))
          (group_keys tx_key buys) in
    map net_row (merge_left key_eqb fst fst net cost).

(** The valuation columns of one merged row. *)
Definition valuation (m : Net.t * option (string * option Num.real))
    : Position.t :=
  let n := fst m in
  let last := match snd m with Some (_, l) => l | None => None end in
  {| Position.symbol := Net.symbol n;
     Position.asset_type := Net.asset_type n;
     Position.units := Net.units n;
     Position.avg_cost := Net.avg_cost n;
     Position.invested := Net.invested n;
     Position.last := last;
     Position.value := option_map (fun l => (Net.units n * l)%Qc) last;
     Position.pnl :=
       option_map (fun l => ((l - Net.avg_cost n) * Net.units n)%Qc) last;
     Position.pnl_pct :=
       if Num.gt0 (Net.avg_cost n)
       then option_map
              (fun l => ((l / Net.avg_cost n - 1) * Num.lit 100)%Qc) last
       else None |}.

(** [.sort_values("symbol")] *)
Definition sort_values_symbol (out : list Position.t) : list Position.t :=
  sort_by (fun a b => String.leb (Position.symbol a) (Position.symbol b)) out.

(** The frame [df] of [compute_holdings] after its two normalizing
    assignments. *)
Definition normalized (tx_df : list transaction) : list transaction :=
  map sip_to_buy (map upper_symbol tx_df).

Definition compute_holdings (yf : Pricing.market) (tx_df : list transaction)
    : M (list Position.t) :=
  if empty tx_df then ret []
  else
    let df := normalized tx_df in
    let net := net_frame df in
    snaps <- call_price_snapshot yf (map Net.symbol net) ;;
    cols <- select_symbol_last snaps ;;
    let out := merge_left String.eqb Net.symbol fst net cols in
    ret (sort_values_symbol (map valuation out)).

(** What [run] gives when the engine returns a frame. *)
Definition holdings (yf : Pricing.market) (tx_df : list transaction)
    : option (list Position.t) :=
  match fst (run (compute_holdings yf tx_df)) with
  | inr out => Some out
  | inl _ => None
  end.

(** The calls the engine made to [price_snapshot]. *)
Definition lookups (yf : Pricing.market) (tx_df : list transaction) : calls :=
  snd (run (compute_holdings yf tx_df)).

(** The columns of a position that do not come from the price lookup. *)
Definition basis (p : Position.t)
    : string * string * Num.real * Num.real * Num.real :=
  (Position.symbol p, Position.asset_type p, Position.units p,
   Position.avg_cost p, Position.invested p).

Definition pos_key (p : Position.t) : key :=
  (Position.symbol p, Position.asset_type p).

(** The key under which a ledger row is grouped. *)
Definition group_key (t : transaction) : key :=
  tx_key (sip_to_buy (upper_symbol t)).

(** The sum of [units] over the BUY rows of one group ([total_units]). *)
Definition buy_units (tx_df : list transaction) (k : key) : Num.real :=
  Num.total (map units (group tx_key k (filter is_buy (normalized tx_df)))).

(** [txn_type] is one of the kinds that move units or cost. *)
Definition moves_units (t : transaction) : bool :=
  String.eqb (txn_type t) "BUY" || String.eqb (txn_type t) "SELL"
  || String.eqb (txn_type t) "SIP".

(** The row of [net] for the group label [k], in closed form: the sums
    over the group of [df] and over the group of its BUY rows. *)
Definition net_of (df : list transaction) (k : key) : Net.t :=
  let buys := filter is_buy df in
  let total_units := Num.total (map units (group tx_key k buys)) in
  let total_cost := Num.total (map cost (group tx_key k buys)) in
  {| Net.symbol := fst k;
     Net.asset_type := snd k;
     Net.units := Num.total (map signed_units (group tx_key k df));
     Net.avg_cost :=
       if Num.gt0 total_units then (total_cost / total_units)%Qc else 0%Qc;
     Net.invested := total_cost |}.

(** What the price lookup reports as [last] for a symbol. *)
Definition last_of (yf : Pricing.market) (s : string) : option Num.real :=
  Pricing.last (Pricing.snapshot_row yf s).

(** The output row built from a row of [net] and the lookup row of its
    symbol. *)
Definition position_of (yf : Pricing.market) (n : Net.t) : Position.t :=
  valuation (n, Some (Net.symbol n, last_of yf (Net.symbol n))).

(** The left rows of the merge on [symbol] alone: each row of [net], once
    per lookup row that carries its symbol. *)
Definition replicated (net : list Net.t) (symbols : list string) : list Net.t :=
  flat_map
    (fun n => map (fun _ => n) (filter (String.eqb (Net.symbol n)) symbols))
    net.

(** The rows the engine returns for a non-empty ledger, before the final
    sort: one per row of [replicated]. *)
Definition out_rows (yf : Pricing.market) (tx_df : list transaction)
    : list Position.t :=
  let net := net_frame (normalized tx_df) in
  map (position_of yf) (replicated net (map Net.symbol net)).

(** [t'] is [t], or [t] is a SIP row and [t'] is [t] relabelled BUY. *)
Inductive sip_relabelled : transaction -> transaction -> Prop :=
| relabel_none (t : transaction) : sip_relabelled t t
| relabel_sip (t : transaction) :
    txn_type t = "SIP"%string -> sip_relabelled t (with_txn_type "BUY" t).

Definition net_le (a b : Net.t) : bool :=
  String.leb (Net.symbol a) (Net.symbol b).

Definition net_basis (n : Net.t)
    : string * string * Num.real * Num.real * Num.real :=
  (Net.symbol n, Net.asset_type n, Net.units n, Net.avg_cost n,
   Net.invested n).

End App.

(* ------------------------------------------------------------------ *)
(** ** Ledgers and markets used in the examples *)

Module Examples.

Import App.

Open Scope string_scope.

(** A ledger row as [insert_tx] stores it, but for the symbol, which is
    kept as typed. *)
Definition row (sym asset kind : string) (u p f : Z) : transaction :=
  {| id := 0; user_id := 1; date := "2024-01-02"; symbol := sym;
     asset_type := asset; txn_type := kind;
     units := Num.lit u; price := Num.lit p; fees := Num.lit f;
     account := "Default" |}.

(** yfinance raises for every symbol. *)
Definition offline : Pricing.market := fun _ => Pricing.Raises.

(** yfinance knows AAPL only. *)
Definition aapl_only : Pricing.market :=
  fun s =>
    if String.eqb s "AAPL"
    then Pricing.Closes [Num.lit 50; Num.lit 60]
    else Pricing.Raises.

Definition buy_10 : transaction := row "aapl" "stock" "BUY" 10 100 5.
Definition sell_4 : transaction := row "AAPL" "stock" "SELL" 4 120 0.

(** A purchase and a partial sale of one key, next to another key. *)
Definition buy_then_sell : list transaction :=
  [row "MSFT" "stock" "BUY" 1 300 0; buy_10; sell_4].

(** One symbol held under two asset types. *)
Definition two_asset_types : list transaction :=
  [row "AAPL" "stock" "BUY" 10 100 5; row "AAPL" "etf" "BUY" 4 120 0].

Definition sip_ledger : list transaction :=
  [row "AAPL" "stock" "SIP" 2 90 1; row "AAPL" "stock" "BUY" 10 100 5].

Definition sip_ledger_relabelled : list transaction :=
  [with_txn_type "BUY" (row "AAPL" "stock" "SIP" 2 90 1);
   row "AAPL" "stock" "BUY" 10 100 5].

Definition dividend : transaction := row "aapl" "stock" "DIV" 3 7 1.

Definition dividends_only : list transaction :=
  [row "MSFT" "stock" "DIV" 3 7 1; row "AAPL" "stock" "BUY" 10 100 5;
   row "msft" "stock" "BONUS" 1 1 1].

End Examples.

(* ------------------------------------------------------------------ *)
(** ** Kinds of ledger rows *)

Module Ledger.

Import App.

(** [txn_type] is SELL. *)
Definition is_sell (t : transaction) : bool :=
  String.eqb (txn_type t) "SELL".

(** [txn_type] is BUY or SIP: the rows that are BUY rows once [df] is
    normalized. *)
Definition is_purchase (t : transaction) : bool :=
  String.eqb (txn_type t) "BUY" || String.eqb (txn_type t) "SIP".

End Ledger.

(* ------------------------------------------------------------------ *)
(** ** app.py: the metrics of the Dashboard page *)

Module Dashboard.

Import Pandas App.

(** [np.nansum] of a column: a missing cell counts as zero. *)
Definition nansum (col : list (option Num.real)) : Num.real :=
  Num.total (map (fillna 0%Qc) col).

(** The four numbers shown at the top of the page. *)
Record metrics := {
  total_value : Num.real;
  invested    : Num.real;
  pnl         : Num.real;
  pnl_pct     : Num.real
}.

(** Lines 203-206, from the frame [holdings]. *)
Definition metrics_of (holdings : list Position.t) : metrics :=
  let total_value :=
    if empty holdings then 0%Qc
    else nansum (map Position.value holdings) in
  let invested :=
    if empty holdings then 0%Qc
    else nansum (map (fun p => Some (Position.invested p)) holdings) in
  let pnl :=
    if empty holdings then 0%Qc
    else nansum (map Position.pnl holdings) in
  {| total_value := total_value;
     invested := invested;
     pnl := pnl;
     pnl_pct :=
       if Num.gt0 invested
       then ((total_value / invested - 1) * Num.lit 100)%Qc
       else 0%Qc |}.

(** Lines 201-206: the metrics of the ledger [tx], read by [fetch_tx]. *)
Definition dashboard (yf : Pricing.market) (tx : list transaction)
    : M metrics :=
  bind (compute_holdings yf tx) (fun holdings => ret (metrics_of holdings)).

(** The metrics when the engine returns a frame. *)
Definition shown (yf : Pricing.market) (tx : list transaction)
    : option metrics :=
  match fst (run (dashboard yf tx)) with
  | inr m => Some m
  | inl _ => None
  end.

End Dashboard.

(* ------------------------------------------------------------------ *)
(** ** db.py: the tables and the statements run on them

    A table is the list of its rows in insertion order; each function of
    db.py reads or writes one table, so it is a function of that table.
    [now_iso()] is the argument [now].  Text is compared as SQLite's
    default collation does, byte by byte. *)

Module Db.

Import Pandas App.

(** [INTEGER PRIMARY KEY AUTOINCREMENT] on a table no row is ever deleted
    from: one more than the largest id. *)
Definition next_id {A} (idf : A -> Z) (tbl : list A) : Z :=
  (1 + fold_right Z.max 0 (map idf tbl))%Z.

(** *** transactions *)

Definition insert_tx (tbl : list transaction) (uid : Z)
    (date symbol asset_type txn_type : string)
    (units price fees : Num.real) (account : string) : list transaction :=
  tbl ++ [{| id := next_id id tbl; user_id := uid; date := date;
             symbol := str_upper symbol; asset_type := asset_type;
             txn_type := txn_type; units := units; price := price;
             fees := fees; account := account |}].

(** [ORDER BY date, id] *)
Definition tx_le (a b : transaction) : bool :=
  match String.compare (date a) (date b) with
  | Lt => true
  | Eq => (id a <=? id b)%Z
  | Gt => false
  end.

Definition fetch_tx (tbl : list transaction) (uid : Z) : list transaction :=
  sort_by tx_le (filter (fun t => (user_id t =? uid)%Z) tbl).

(** The arguments of one call of [insert_tx]. *)
Record tx_request := {
  q_user : Z;
  q_date : string;
  q_symbol : string;
  q_asset_type : string;
  q_txn_type : string;
  q_units : Num.real;
  q_price : Num.real;
  q_fees : Num.real;
  q_account : string
}.

Definition insert_request (tbl : list transaction) (q : tx_request)
    : list transaction :=
  insert_tx tbl (q_user q) (q_date q) (q_symbol q) (q_asset_type q)
    (q_txn_type q) (q_units q) (q_price q) (q_fees q) (q_account q).

(** The table after a series of calls of [insert_tx] on the empty table
    [init_db] creates. *)
Definition ledger_of (qs : list tx_request) : list transaction :=
  fold_left insert_request qs [].

(** *** watchlist

    The column [id] is left out: no statement of db.py reads it. *)

Module Watch.
Record row := {
  user_id    : Z;
  symbol     : string;
  alias      : option string;
  created_at : string
}.
End Watch.

(** The columns of [UNIQUE(user_id, symbol)]. *)
Definition watch_pair (r : Watch.row) : Z * string :=
  (Watch.user_id r, Watch.symbol r).

(** [user_id=? AND symbol=?] *)
Definition watch_is (uid : Z) (sym : string) (r : Watch.row) : bool :=
  (Watch.user_id r =? uid)%Z && String.eqb (Watch.symbol r) sym.

(** [INSERT OR IGNORE]: a row that would break [UNIQUE(user_id, symbol)]
    is not inserted. *)
Definition add_watch (tbl : list Watch.row) (now : string) (uid : Z)
    (symbol : string) (alias : option string) : list Watch.row :=
  if existsb (watch_is uid (str_upper symbol)) tbl then tbl
  else tbl ++ [{| Watch.user_id := uid; Watch.symbol := str_upper symbol;
                  Watch.alias := alias; Watch.created_at := now |}].

Definition del_watch (tbl : list Watch.row) (uid : Z) (symbol : string)
    : list Watch.row :=
  filter (fun r => negb (watch_is uid (str_upper symbol) r)) tbl.

(** [SELECT symbol, alias, created_at ... ORDER BY symbol] *)
Definition get_watchlist (tbl : list Watch.row) (uid : Z)
    : list (string * option string * string) :=
  sort_by (fun a b => String.leb (fst (fst a)) (fst (fst b)))
    (map (fun r => (Watch.symbol r, Watch.alias r, Watch.created_at r))
       (filter (fun r => (Watch.user_id r =? uid)%Z) tbl)).

(** What the Watchlist page does to the table in one run. *)
Inductive watch_op :=
| Add (now : string) (uid : Z) (symbol : string) (alias : option string)
| Del (uid : Z) (symbol : string).

Definition watch_step (tbl : list Watch.row) (op : watch_op)
    : list Watch.row :=
  match op with
  | Add now uid symbol alias => add_watch tbl now uid symbol alias
  | Del uid symbol => del_watch tbl uid symbol
  end.

Definition watchlist_of (ops : list watch_op) : list Watch.row :=
  fold_left watch_step ops [].

(** *** messages *)

Module Msg.
Record row := {
  id         : Z;
  user_id    : Z;
  role       : string;
  text       : string;
  created_at : string;
  seen       : Z
}.
End Msg.

Definition add_message (tbl : list Msg.row) (now : string) (uid : Z)
    (role text : string) : list Msg.row :=
  tbl ++ [{| Msg.id := next_id Msg.id tbl; Msg.user_id := uid;
             Msg.role := role; Msg.text := text; Msg.created_at := now;
             Msg.seen := 0%Z |}].

(** [include_admin] is accepted and not used. *)
Definition fetch_messages (tbl : list Msg.row) (uid : Z)
    (include_admin : bool) : list Msg.row :=
  sort_by (fun a b => (Msg.id a <=? Msg.id b)%Z)
    (filter (fun r => (Msg.user_id r =? uid)%Z) tbl).

(** [role='user' AND seen=0] *)
Definition unread (r : Msg.row) : bool :=
  String.eqb (Msg.role r) "user" && (Msg.seen r =? 0)%Z.

Definition unread_count (tbl : list Msg.row) : Z :=
  Z.of_nat (List.length (filter unread tbl)).

Definition mark_all_seen (tbl : list Msg.row) : list Msg.row :=
  map (fun r =>
         if unread r
         then {| Msg.id := Msg.id r; Msg.user_id := Msg.user_id r;
                 Msg.role := Msg.role r; Msg.text := Msg.text r;
                 Msg.created_at := Msg.created_at r; Msg.seen := 1%Z |}
         else r)
      tbl.

(** *** posts *)

Module Post.
Record row := {
  id         : Z;
  user_id    : Z;
  title      : string;
  content    : string;
  symbols    : string;
  status     : string;
  created_at : string;
  updated_at : string
}.
End Post.

Definition add_post (tbl : list Post.row) (now : string) (uid : Z)
    (title content symbols status : string) : list Post.row :=
  tbl ++ [{| Post.id := next_id Post.id tbl; Post.user_id := uid;
             Post.title := title; Post.content := content;
             Post.symbols := symbols; Post.status := status;
             Post.created_at := now; Post.updated_at := now |}].

(** [UPDATE posts SET status=?, updated_at=? WHERE id=? AND user_id=?] *)
Definition update_post_status (tbl : list Post.row) (now : string)
    (post_id uid : Z) (status : string) : list Post.row :=
  map (fun r =>
         if (Post.id r =? post_id)%Z && (Post.user_id r =? uid)%Z
         then {| Post.id := Post.id r; Post.user_id := Post.user_id r;
                 Post.title := Post.title r; Post.content := Post.content r;
                 Post.symbols := Post.symbols r; Post.status := status;
                 Post.created_at := Post.created_at r;
                 Post.updated_at := now |}
         else r)
      tbl.

(** The [WHERE] clause [fetch_posts] builds: [if user_id:] is false for
    [None] and for 0. *)
Definition post_selected (user_id : option Z) (only_published : bool)
    (r : Post.row) : bool :=
  match user_id with
  | Some u => if (u =? 0)%Z then true else (Post.user_id r =? u)%Z
  | None => true
  end
  && (if only_published then String.eqb (Post.status r) "published" else true).

(** [ORDER BY updated_at DESC]; rows with equal [updated_at] are kept in
    table order here, SQL leaves their order open. *)
Definition fetch_posts (tbl : list Post.row) (user_id : option Z)
    (only_published : bool) : list Post.row :=
  sort_by (fun a b => String.leb (Post.updated_at b) (Post.updated_at a))
    (filter (post_selected user_id only_published) tbl).

(** *** users *)

Module User.
Record row := {
  id            : Z;
  full_name     : string;
  username      : string;
  email         : string;
  phone         : string;
  password_hash : string;
  salt          : string;
  created_at    : string
}.
End User.

(** [sqlite3.IntegrityError], raised on [username TEXT UNIQUE]. *)
Inductive db_error :=
| IntegrityError.

Definition create_user (tbl : list User.row) (now : string)
    (full_name username email phone password_hash salt : string)
    : db_error + list User.row :=
  if existsb (fun r => String.eqb (User.username r) username) tbl
  then inl IntegrityError
  else inr (tbl ++ [{| User.id := next_id User.id tbl;
                       User.full_name := full_name;
                       User.username := username; User.email := email;
                       User.phone := phone;
                       User.password_hash := password_hash;
                       User.salt := salt; User.created_at := now |}]).

(** [cur.fetchone()]: the first row of the result, or [None]. *)
Definition get_user_by_username (tbl : list User.row) (username : string)
    : option User.row :=
  find (fun r => String.eqb (User.username r) username) tbl.

(** *** inquiries *)

Module Inq.
Record row := {
  id         : Z;
  user_id    : Z;
  name       : string;
  email      : string;
  phone      : string;
  message    : string;
  created_at : string
}.
End Inq.

Definition add_inquiry (tbl : list Inq.row) (now : string) (uid : Z)
    (name email phone message : string) : list Inq.row :=
  tbl ++ [{| Inq.id := next_id Inq.id tbl; Inq.user_id := uid;
             Inq.name := name; Inq.email := email; Inq.phone := phone;
             Inq.message := message; Inq.created_at := now |}].

(** [SELECT * FROM inquiries ORDER BY id DESC] *)
Definition fetch_inquiries (tbl : list Inq.row) : list Inq.row :=
  sort_by (fun a b => (Inq.id b <=? Inq.id a)%Z) tbl.

End Db.

(* ------------------------------------------------------------------ *)
(** ** pricing.py: [history] and its table of durations *)

Module Charts.

Open Scope string_scope.

Definition DURATION_MAP : list (string * (string * string)) :=
  [("1 Day",    ("5d",  "30m"));
   ("5 Days",   ("1mo", "1h"));
   ("1 Month",  ("1mo", "1d"));
   ("3 Months", ("3mo", "1d"));
   ("6 Months", ("6mo", "1d"));
   ("1 Year",   ("1y",  "1d"));
   ("3 Years",  ("3y",  "1wk"));
   ("5 Years",  ("5y",  "1wk"));
   ("Max",      ("max", "1mo"))].

(** [DURATION_MAP.get(duration_label, ("6mo","1d"))] *)
Definition duration_of (duration_label : string) : string * string :=
  match find (fun e => String.eqb (fst e) duration_label) DURATION_MAP with
  | Some e => snd e
  | None => ("6mo", "1d")
  end.

(** What [yf.Ticker(symbol).history(period, interval)] answers: an
    exception, [None], or a frame given by its rows. *)
Inductive answer (row : Type) :=
| Raised
| NoFrame
| Frame (rows : list row).

Arguments Raised {row}.
Arguments NoFrame {row}.
Arguments Frame {row} rows.

(** yfinance, asked for a symbol, a period and an interval. *)
Definition source (row : Type) := string -> string -> string -> answer row.

(** [history(symbol, duration_label)]: [None] when the call to yfinance
    raises (nothing catches it), else the rows of the frame returned,
    none for [pd.DataFrame()]. *)
Definition history {row} (yf : source row) (symbol duration_label : string)
    : option (list row) :=
  let (period, interval) := duration_of duration_label in
  match yf symbol period interval with
  | Raised => None
  | NoFrame => Some []
  | Frame rows => Some rows
  end.

End Charts.

(* ------------------------------------------------------------------ *)
(** ** amfi.py: the cache in front of the download *)

Module Amfi.

(** [a < b] on reals. *)
Definition ltb (a b : Num.real) : bool :=
  match Qccompare a b with Lt => true | _ => false end.

(** [_CACHE], for frames of type [F]. *)
Record cache (F : Type) := {
  df  : option F;
  ts  : Num.real;
  ttl : Num.real
}.

Arguments df {F} c.
Arguments ts {F} c.
Arguments ttl {F} c.

(** [_CACHE] when the module is loaded. *)
Definition initial {F} : cache F :=
  {| df := None; ts := 0%Qc; ttl := Num.lit 900 |}.

(** What [_load_from_amfi()] does if it is called: it raises, or it
    returns a frame. *)
Inductive download (F : Type) :=
| Fails
| Gives (frame : F).

Arguments Fails {F}.
Arguments Gives {F} frame.

(** The outcome of one call of [get_amfi_df]: the frame returned, or
    [None] when the download raised; the cache after the call; and whether
    [_load_from_amfi] was called. *)
Record outcome (F : Type) := {
  returned   : option F;
  cache_after : cache F;
  downloaded : bool
}.

Arguments returned {F} o.
Arguments cache_after {F} o.
Arguments downloaded {F} o.

(** [get_amfi_df(force_refresh)] at time [now = time.time()]. *)
Definition get_amfi_df {F} (c : cache F) (now : Num.real)
    (force_refresh : bool) (load : download F) : outcome F :=
  match df c with
  | Some frame =>
      if negb force_refresh && ltb (now - ts c)%Qc (ttl c)
      then {| returned := Some frame; cache_after := c; downloaded := false |}
      else
        match load with
        | Fails => {| returned := None; cache_after := c; downloaded := true |}
        | Gives f =>
            {| returned := Some f;
               cache_after := {| df := Some f; ts := now; ttl := ttl c |};
               downloaded := true |}
        end
  | None =>
      match load with
      | Fails => {| returned := None; cache_after := c; downloaded := true |}
      | Gives f =>
          {| returned := Some f;
             cache_after := {| df := Some f; ts := now; ttl := ttl c |};
             downloaded := true |}
      end
  end.

End Amfi.

(* ------------------------------------------------------------------ *)
(** ** app.py: the news helpers *)

Module News.

Open Scope string_scope.

(** An entry of a parsed feed: the keys it has. *)
Record entry := {
  e_title     : option string;
  e_link      : option string;
  e_published : option string
}.

(** What [feedparser.parse(url)] gives: the title of the feed, when it
    has one, and its entries. *)
Record feed := {
  feed_title : option string;
  entries    : list entry
}.

(** [feedparser.parse], [None] when anything in the [try] of [read_rss]
    raises. *)
Definition parser := string -> option feed.

(** [d.get(key, default)] *)
Definition get (default : string) (v : option string) : string :=
  match v with Some s => s | None => default end.

(** A row of the frame [read_rss] returns. *)
Record item := {
  source    : string;
  title     : string;
  link      : string;
  published : string
}.

(** [read_rss(url, limit)]: the rows of the frame; none both for a feed
    without entries and in the [except] branch. *)
Definition read_rss (parse : parser) (url : string) (limit : nat)
    : list item :=
  match parse url with
  | None => []
  | Some f =>
      map (fun e => {| source := get "RSS" (feed_title f);
                       title := get "" (e_title e);
                       link := get "" (e_link e);
                       published := get "" (e_published e) |})
          (firstn limit (entries f))
  end.

Definition NEWS_FEEDS : list (string * list string) :=
  [("Markets",
    ["https://feeds.finance.yahoo.com/rss/2.0/headline?s=%5EGSPC&region=US&lang=en-US";
     "https://www.cnbc.com/id/100003114/device/rss/rss.html"]);
   ("Crypto",
    ["https://www.coindesk.com/arc/outboundfeeds/rss/"]);
   ("Business & Politics",
    ["https://www.cnbc.com/id/10000664/device/rss/rss.html"])].

(** A row of the frame [aggregate_news] returns. *)
Record headline := {
  category : string;
  story    : item
}.

(** The column [title] of a row. *)
Definition headline_title (h : headline) : string := title (story h).

(** [drop_duplicates(subset=["title"])]: of the rows with one title the
    first is kept. *)
Fixpoint drop_duplicate_titles (seen : list string) (rows : list headline)
    : list headline :=
  match rows with
  | [] => []
  | r :: rest =>
      if existsb (String.eqb (title (story r))) seen
      then drop_duplicate_titles seen rest
      else r :: drop_duplicate_titles (title (story r) :: seen) rest
  end.

(** The frames appended to [dfs], concatenated: the rows of every feed
    that has rows, under the category of the feed. *)
Definition gathered (parse : parser) (feeds : list (string * list string))
    : list headline :=
  flat_map
    (fun cu =>
       flat_map
         (fun u =>
            map (fun i => {| category := fst cu; story := i |})
                (read_rss parse u 12))
         (snd cu))
    feeds.

Definition aggregate_news (parse : parser) : list headline :=
  drop_duplicate_titles [] (gathered parse NEWS_FEEDS).

End News.

(* ------------------------------------------------------------------ *)
(** ** More ledgers, tables and caches for the examples *)

Module Scenes.

Import App.

Open Scope string_scope.

Definition aapl_buy : transaction := Examples.row "AAPL" "stock" "BUY" 10 100 5.
Definition aapl_sip : transaction := Examples.row "aapl" "stock" "SIP" 2 90 1.
Definition tsla_sell : transaction := Examples.row "TSLA" "stock" "SELL" 3 200 0.


(** TSLA sold without a recorded purchase, next to AAPL. *)
Definition short_sale : list transaction := [tsla_sell; aapl_buy].

(** yfinance has closes for every symbol. *)
Definition all_priced : Pricing.market :=
  fun _ => Pricing.Closes [Num.lit 50; Num.lit 60].

(** The AMFI cache before the first call, for frames given as lists of
    scheme names. *)
Definition cold_cache : Amfi.cache (list string) := Amfi.initial.

End Scenes.

(* ------------------------------------------------------------------ *)
(** * Facts about the numbers *)

Section NumFacts.

Open Scope Qc_scope.

Lemma gt0_true_iff (x : Num.real) : Num.gt0 x = true <-> 0 < x.
Proof.
  unfold Num.gt0, Qclt, Qccompare.
  rewrite Qlt_alt.
  destruct (this 0 ?= this x)%Q; split; intros H; congruence.
Qed.

Lemma gt0_false_iff (x : Num.real) : Num.gt0 x = false <-> ~ 0 < x.
Proof.
  rewrite <- gt0_true_iff. destruct (Num.gt0 x); split; congruence.
Qed.

Lemma gt0_zero : Num.gt0 0 = false.
Proof. reflexivity. Qed.

Lemma total_app (xs ys : list Num.real) :
  Num.total (xs ++ ys) = Num.total xs + Num.total ys.
Proof.
  induction xs as [|x xs IH]; simpl.
  - now rewrite Qcplus_0_l.
  - rewrite IH. apply Qcplus_assoc.
Qed.

Lemma total_zeros (xs : list Num.real) :
  (forall x, In x xs -> x = 0) -> Num.total xs = 0.
Proof.
  induction xs as [|x xs IH]; simpl; intros H; [reflexivity|].
  rewrite (H x (or_introl eq_refl)), IH by auto.
  apply Qcplus_0_l.
Qed.

End NumFacts.

(* ------------------------------------------------------------------ *)
(** * Facts about the pandas operations *)

Section SortFacts.

Import Pandas.

Context {A : Type} (le : A -> A -> bool).

Lemma insert_by_perm (x : A) (l : list A) :
  Permutation (insert_by le x l) (x :: l).
Proof.
  induction l as [|y r IH]; simpl; [reflexivity|].
  destruct (le x y); [reflexivity|].
  rewrite IH. apply perm_swap.
Qed.

Lemma sort_by_perm (l : list A) : Permutation (sort_by le l) l.
Proof.
  induction l as [|x r IH]; simpl; [reflexivity|].
  rewrite insert_by_perm. now constructor.
Qed.

Lemma in_sort_by (x : A) (l : list A) : In x (sort_by le l) <-> In x l.
Proof.
  split; apply Permutation_in;
    [apply sort_by_perm | apply Permutation_sym, sort_by_perm].
Qed.

End SortFacts.

Section SortMap.

Import Pandas.

Context {A B : Type} (g : A -> B) (le : B -> B -> bool).

Lemma insert_by_map (x : A) (l : list A) :
  insert_by le (g x) (map g l)
  = map g (insert_by (fun a b => le (g a) (g b)) x l).
Proof.
  induction l as [|y r IH]; simpl; [reflexivity|].
  destruct (le (g x) (g y)); simpl; [reflexivity|].
  now rewrite IH.
Qed.

(** Sorting commutes with a row-wise map when the order only looks at the
    mapped row. *)
Lemma sort_by_map (l : list A) :
  sort_by le (map g l) = map g (sort_by (fun a b => le (g a) (g b)) l).
Proof.
  induction l as [|x r IH]; simpl; [reflexivity|].
  rewrite IH. apply insert_by_map.
Qed.

End SortMap.

Section KeyFacts.

Import Pandas.

Lemma key_eqb_eq (a b : key) : key_eqb a b = true <-> a = b.
Proof.
  destruct a as [a1 a2], b as [b1 b2]; unfold key_eqb; simpl.
  rewrite andb_true_iff, !String.eqb_eq.
  split; [intros [-> ->]; reflexivity | intros H; inversion H; auto].
Qed.

Lemma key_eqb_refl (a : key) : key_eqb a a = true.
Proof. now apply key_eqb_eq. Qed.

Lemma existsb_key_eqb (k : key) (l : list key) :
  existsb (key_eqb k) l = true <-> In k l.
Proof.
  rewrite existsb_exists. split.
  - intros (x & Hx & E). apply key_eqb_eq in E. now subst.
  - intros H. exists k. split; [exact H | apply key_eqb_refl].
Qed.

Lemma uniques_snoc (l : list key) (k : key) :
  uniques (l ++ [k])
  = if existsb (key_eqb k) (uniques l) then uniques l else uniques l ++ [k].
Proof. unfold uniques. now rewrite fold_left_app. Qed.

Lemma in_uniques (k : key) (l : list key) : In k (uniques l) <-> In k l.
Proof.
  revert k. induction l as [|x l IH] using rev_ind; intros k; [reflexivity|].
  rewrite uniques_snoc, in_app_iff.
  destruct (existsb (key_eqb x) (uniques l)) eqn:E.
  - apply existsb_key_eqb, IH in E. rewrite IH.
    simpl. split; [tauto|]. intros [H|[<-|[]]]; assumption.
  - rewrite in_app_iff, IH. reflexivity.
Qed.

Lemma NoDup_uniques (l : list key) : NoDup (uniques l).
Proof.
  induction l as [|x l IH] using rev_ind; [constructor|].
  rewrite uniques_snoc.
  destruct (existsb (key_eqb x) (uniques l)) eqn:E; [exact IH|].
  apply (Permutation_NoDup (l := x :: uniques l)).
  - apply Permutation_cons_append.
  - constructor; [|exact IH].
    intros H. apply existsb_key_eqb in H. congruence.
Qed.

(** Appending a key that is already there adds no group label. *)
Lemma uniques_snoc_present (l : list key) (k : key) :
  In k l -> uniques (l ++ [k]) = uniques l.
Proof.
  intros H. rewrite uniques_snoc.
  apply in_uniques, existsb_key_eqb in H. now rewrite H.
Qed.

Context {A : Type} (kf : A -> key).

Lemma in_group_keys (k : key) (df : list A) :
  In k (group_keys kf df) <-> In k (map kf df).
Proof. unfold group_keys. now rewrite in_sort_by, in_uniques. Qed.

Lemma NoDup_group_keys (df : list A) : NoDup (group_keys kf df).
Proof.
  unfold group_keys.
  apply (Permutation_NoDup (l := uniques (map kf df))).
  - apply Permutation_sym, sort_by_perm.
  - apply NoDup_uniques.
Qed.

Lemma group_keys_snoc_present (df : list A) (r : A) :
  In (kf r) (map kf df) -> group_keys kf (df ++ [r]) = group_keys kf df.
Proof.
  intros H. unfold group_keys.
  rewrite map_app. simpl. now rewrite (uniques_snoc_present (map kf df) (kf r) H).
Qed.

Lemma group_app (k : key) (df df' : list A) :
  group kf k (df ++ df') = group kf k df ++ group kf k df'.
Proof. apply filter_app. Qed.

End KeyFacts.

Section MergeFacts.

Import Pandas.

Lemma group_nil {A} (kf : A -> key) (k : key) (df : list A) :
  ~ In k (map kf df) -> group kf k df = [].
Proof.
  induction df as [|r df IH]; simpl; intros H; [reflexivity|].
  destruct (key_eqb (kf r) k) eqn:E.
  - apply key_eqb_eq in E. tauto.
  - apply IH. tauto.
Qed.

Lemma group_map {A B} (g : A -> B) (kf : B -> key) (k : key) (l : list A) :
  group kf k (map g l) = map g (group (fun a => kf (g a)) k l).
Proof.
  unfold group. induction l as [|a l IH]; simpl; [reflexivity|].
  destruct (key_eqb (kf (g a)) k); simpl; now rewrite IH.
Qed.

Lemma filter_map_swap {A B} (p : B -> bool) (g : A -> B) (l : list A) :
  filter p (map g l) = map g (filter (fun a => p (g a)) l).
Proof.
  induction l as [|a l IH]; simpl; [reflexivity|].
  destruct (p (g a)); simpl; now rewrite IH.
Qed.

(** In a frame with one row per key, a key selects its own row or none. *)
Lemma filter_keyed {V} (f : key -> V) (k : key) (ks : list key) :
  NoDup ks ->
  filter (fun r => key_eqb k (fst r)) (map (fun k' => (k', f k')) ks)
  = if existsb (key_eqb k) ks then [(k, f k)] else [].
Proof.
  induction 1 as [|x ks Hx Hnd IH]; simpl; [reflexivity|].
  destruct (key_eqb k x) eqn:E; simpl.
  - apply key_eqb_eq in E. subst x. rewrite IH.
    destruct (existsb (key_eqb k) ks) eqn:E'; [|reflexivity].
    apply existsb_key_eqb in E'. contradiction.
  - exact IH.
Qed.

(** A left merge on the compound key against a frame with one row per key
    keeps the left frame row for row. *)
Lemma merge_left_keyed {V W} (f : key -> V) (g : key -> W) (ks ks' : list key) :
  NoDup ks' ->
  merge_left key_eqb fst fst
    (map (fun k => (k, f k)) ks) (map (fun k => (k, g k)) ks')
  = map (fun k => ((k, f k),
                   if existsb (key_eqb k) ks' then Some (k, g k) else None))
        ks.
Proof.
  intros Hnd. unfold merge_left.
  induction ks as [|k ks IH]; [reflexivity|].
  cbn [map flat_map fst]. rewrite IH, (filter_keyed g k ks' Hnd).
  destruct (existsb (key_eqb k) ks'); reflexivity.
Qed.

End MergeFacts.

(* ------------------------------------------------------------------ *)
(** * pricing.py: the loop of [price_snapshot] *)

Section PricingFacts.

Import Pricing.

Lemma price_snapshot_app (yf : market) (acc : list snap) (symbols : list string) :
  fold_left (fun out s => out ++ [snapshot_row yf s]) symbols acc
  = acc ++ map (snapshot_row yf) symbols.
Proof.
  revert acc. induction symbols as [|s r IH]; intros acc; simpl.
  - now rewrite app_nil_r.
  - rewrite IH, <- app_assoc. reflexivity.
Qed.

Lemma price_snapshot_map (yf : market) (symbols : list string) :
  price_snapshot yf symbols = map (snapshot_row yf) symbols.
Proof. apply (price_snapshot_app yf []). Qed.

Lemma snapshot_row_symbol (yf : market) (s : string) :
  symbol (snapshot_row yf s) = s.
Proof.
  unfold snapshot_row, try_row. destruct (yf s); reflexivity.
Qed.

End PricingFacts.

(* ------------------------------------------------------------------ *)
(** * app.py: the frames of [compute_holdings] in closed form *)

Section EngineFacts.

Import Pandas App.

Lemma net_of_no_buys (df : list transaction) (k : key) :
  filter is_buy df = [] ->
  net_of df k
  = {| Net.symbol := fst k; Net.asset_type := snd k;
       Net.units := Num.total (map signed_units (group tx_key k df));
       Net.avg_cost := 0%Qc; Net.invested := 0%Qc |}.
Proof. intros E. unfold net_of. rewrite E. reflexivity. Qed.

(** [net] has one row per group label of [df], in both branches of the
    test on [buys.empty]. *)
Lemma net_frame_eq (df : list transaction) :
  net_frame df = map (net_of df) (group_keys tx_key df).
Proof.
  unfold net_frame, groupby_sum.
  destruct (filter is_buy df) as [|b buys] eqn:E.
  - cbn [empty]. rewrite map_map. apply map_ext. intros k.
    now rewrite (net_of_no_buys df k E).
  - cbn [empty]. rewrite <- E.
    rewrite (merge_left_keyed _ _ (group_keys tx_key df) _
               (NoDup_group_keys tx_key (filter is_buy df))).
    rewrite map_map. apply map_ext. intros k.
    unfold net_row, net_of. cbn [fst snd].
    destruct (existsb (key_eqb k) (group_keys tx_key (filter is_buy df))) eqn:X.
    + reflexivity.
    + assert (G : group tx_key k (filter is_buy df) = []).
      { apply group_nil. rewrite <- in_group_keys, <- existsb_key_eqb.
        congruence. }
      rewrite G. reflexivity.
Qed.

Lemma net_frame_symbol_keys (df : list transaction) :
  map (fun n => (Net.symbol n, Net.asset_type n)) (net_frame df)
  = group_keys tx_key df.
Proof.
  rewrite net_frame_eq, map_map. rewrite <- (map_id (group_keys tx_key df)) at 2.
  apply map_ext. intros [s a]. reflexivity.
Qed.

Lemma group_keys_nonempty {A} (kf : A -> key) (r : A) (df : list A) :
  group_keys kf (r :: df) <> [].
Proof.
  intros E.
  assert (H : In (kf r) (group_keys kf (r :: df))).
  { apply in_group_keys. now left. }
  rewrite E in H. exact H.
Qed.

Lemma net_frame_nonempty (t : transaction) (df : list transaction) :
  net_frame (t :: df) <> [].
Proof.
  rewrite net_frame_eq. intros E. apply map_eq_nil in E.
  exact (group_keys_nonempty tx_key t df E).
Qed.

(** The merge on [symbol] alone, against the lookup frame of [symbols]. *)
Lemma merge_prices (f : string -> option Num.real)
    (net : list Net.t) (symbols : list string) :
  (forall n, In n net -> In (Net.symbol n) symbols) ->
  map valuation
      (merge_left String.eqb Net.symbol fst net
         (map (fun s => (s, f s)) symbols))
  = map (fun n => valuation (n, Some (Net.symbol n, f (Net.symbol n))))
        (replicated net symbols).
Proof.
  unfold merge_left, replicated.
  induction net as [|n net IH]; intros Hin; [reflexivity|].
  cbn [flat_map]. rewrite !map_app, IH by (intros; apply Hin; now right).
  f_equal.
  rewrite filter_map_swap. cbn [fst].
  destruct (filter (fun a => String.eqb (Net.symbol n) a) symbols)
    as [|s0 ms] eqn:E.
  - exfalso.
    assert (H : In (Net.symbol n)
                   (filter (fun a => String.eqb (Net.symbol n) a) symbols)).
    { apply filter_In. split; [apply Hin; now left | apply String.eqb_refl]. }
    rewrite E in H. exact H.
  - assert (Hs : forall s, In s (s0 :: ms) -> s = Net.symbol n).
    { intros s Hs. rewrite <- E in Hs. apply filter_In in Hs.
      symmetry. now apply String.eqb_eq. }
    cbn [empty map]. rewrite !map_map.
    change (valuation (n, Some (s0, f s0))
              :: map (fun x => valuation (n, Some (x, f x))) ms)
      with (map (fun x => valuation (n, Some (x, f x))) (s0 :: ms)).
    change (valuation (n, Some (Net.symbol n, f (Net.symbol n)))
              :: map (fun _ => valuation (n, Some (Net.symbol n, f (Net.symbol n)))) ms)
      with (map (fun _ : string =>
                   valuation (n, Some (Net.symbol n, f (Net.symbol n))))
                (s0 :: ms)).
    apply map_ext_in. intros s Hin'. now rewrite (Hs s Hin').
Qed.

End EngineFacts.

Section HoldingsFacts.

Import Pandas App.

Lemma run_compute_holdings (yf : Pricing.market) (t : transaction)
    (tx : list transaction) :
  run (compute_holdings yf (t :: tx))
  = (inr (sort_values_symbol (out_rows yf (t :: tx))),
     [map Net.symbol (net_frame (normalized (t :: tx)))]).
Proof.
  unfold out_rows, compute_holdings, run, bind, call_price_snapshot.
  cbn [empty]. rewrite price_snapshot_map.
  set (net := net_frame (normalized (t :: tx))).
  assert (Hne : net <> []) by apply net_frame_nonempty.
  destruct net as [|n net'] eqn:E; [congruence|].
  rewrite <- E in *. 
  assert (S : select_symbol_last
                (map (Pricing.snapshot_row yf) (map Net.symbol net))
              = ret (map (fun s => (s, last_of yf s)) (map Net.symbol net))).
  { rewrite E. cbn [map select_symbol_last]. unfold last_of.
    rewrite !map_map, !snapshot_row_symbol. f_equal. f_equal.
    apply map_ext. intros a. now rewrite snapshot_row_symbol. }
  rewrite S. unfold ret. cbn [app].
  rewrite merge_prices; [reflexivity|].
  intros m Hm. now apply in_map.
Qed.

Lemma holdings_cons (yf : Pricing.market) (t : transaction)
    (tx : list transaction) :
  holdings yf (t :: tx) = Some (sort_values_symbol (out_rows yf (t :: tx))).
Proof. unfold holdings. now rewrite run_compute_holdings. Qed.

Lemma holdings_nil (yf : Pricing.market) : holdings yf [] = Some [].
Proof. reflexivity. Qed.

(** The engine returns a frame for every ledger. *)
Lemma holdings_total (yf : Pricing.market) (tx : list transaction) :
  exists out, holdings yf tx = Some out.
Proof.
  destruct tx as [|t tx]; eexists; [apply holdings_nil | apply holdings_cons].
Qed.

Lemma in_replicated (net : list Net.t) (n : Net.t) :
  In n (replicated net (map Net.symbol net)) <-> In n net.
Proof.
  unfold replicated. rewrite in_flat_map. split.
  - intros (m & Hm & Hn). apply in_map_iff in Hn.
    destruct Hn as (s & <- & _). exact Hm.
  - intros Hn. exists n. split; [exact Hn|].
    apply in_map_iff. exists (Net.symbol n). split; [reflexivity|].
    apply filter_In. split; [now apply in_map | apply String.eqb_refl].
Qed.

(** The rows of the output are the rows of [net], valued. *)
Lemma in_holdings (yf : Pricing.market) (t : transaction)
    (tx : list transaction) (p : Position.t) :
  In p (sort_values_symbol (out_rows yf (t :: tx)))
  <-> exists k, In k (map tx_key (normalized (t :: tx)))
                /\ p = position_of yf (net_of (normalized (t :: tx)) k).
Proof.
  unfold sort_values_symbol, out_rows.
  rewrite in_sort_by, in_map_iff. split.
  - intros (n & <- & Hn). rewrite in_replicated in Hn.
    rewrite net_frame_eq in Hn. apply in_map_iff in Hn.
    destruct Hn as (k & <- & Hk). apply in_group_keys in Hk.
    exists k. split; [exact Hk | reflexivity].
  - intros (k & Hk & ->). exists (net_of (normalized (t :: tx)) k).
    split; [reflexivity|]. apply in_replicated.
    rewrite net_frame_eq. apply in_map, in_group_keys, Hk.
Qed.

(** The columns that do not come from the lookup are those of [net]. *)
Lemma basis_sorted (yf : Pricing.market) (l : list Net.t) :
  map basis (sort_values_symbol (map (position_of yf) l))
  = map net_basis (sort_by net_le l).
Proof.
  unfold sort_values_symbol.
  rewrite (sort_by_map (position_of yf)
             (fun a b => String.leb (Position.symbol a) (Position.symbol b))).
  rewrite map_map. apply map_ext. reflexivity.
Qed.

Lemma basis_holdings (yf : Pricing.market) (t : transaction)
    (tx : list transaction) :
  option_map (map basis) (holdings yf (t :: tx))
  = let net := net_frame (normalized (t :: tx)) in
    Some (map net_basis (sort_by net_le (replicated net (map Net.symbol net)))).
Proof.
  rewrite holdings_cons. unfold out_rows. cbn [option_map].
  now rewrite basis_sorted.
Qed.

Lemma group_key_eq (t : transaction) :
  group_key t = (str_upper (symbol t), asset_type t).
Proof.
  unfold group_key, sip_to_buy, upper_symbol.
  destruct (String.eqb _ _); reflexivity.
Qed.

Lemma keys_normalized (tx : list transaction) :
  map tx_key (normalized tx) = map group_key tx.
Proof. unfold normalized, group_key. now rewrite !map_map. Qed.

Lemma group_normalized (k : key) (tx : list transaction) :
  group tx_key k (normalized tx)
  = normalized (group group_key k tx).
Proof.
  unfold normalized. rewrite !map_map.
  apply (group_map (fun t => sip_to_buy (upper_symbol t)) tx_key k tx).
Qed.

End HoldingsFacts.

(* ------------------------------------------------------------------ *)
(** * The empty ledger *)

Section EmptyLedger.

Import Pandas App.

(** C9: for the empty transaction sequence [compute_holdings] returns the
    empty Position frame; it raises nothing and makes no call to the price
    lookup. *)
Theorem C9_empty_ledger (yf : Pricing.market) :
  run (compute_holdings yf []) = (inr [], []).
Proof. reflexivity. Qed.

End EmptyLedger.

(* ------------------------------------------------------------------ *)
(** * The price gateway *)

Section Gateway.

Import Pricing.

Lemma failed_lookup_row (yf : market) (s : string) :
  yf s = Raises \/ yf s = Closes [] ->
  last (snapshot_row yf s) = None /\ prev (snapshot_row yf s) = None.
Proof.
  unfold snapshot_row, try_row. intros [E|E]; rewrite E; split; reflexivity.
Qed.

Lemma snapshot_row_local (yf yf' : market) (s : string) :
  yf' s = yf s -> snapshot_row yf' s = snapshot_row yf s.
Proof. unfold snapshot_row, try_row. now intros ->. Qed.

(** C8: [price_snapshot] returns one entry per requested symbol, in
    order, whatever yfinance does; the entry of a symbol whose lookup raises
    (or yields no close) has [last] and [prev] absent; and the entry of a
    symbol depends on the answer for that symbol only, so a failure
    elsewhere in the batch does not change it. *)
Theorem C8_price_snapshot_tolerant (yf : market) (symbols : list string) :
  map symbol (price_snapshot yf symbols) = symbols
  /\ (forall i s, nth_error symbols i = Some s ->
        nth_error (price_snapshot yf symbols) i = Some (snapshot_row yf s)
        /\ (yf s = Raises \/ yf s = Closes [] ->
            last (snapshot_row yf s) = None /\ prev (snapshot_row yf s) = None)
        /\ (forall yf' : market, yf' s = yf s ->
            nth_error (price_snapshot yf' symbols) i
            = nth_error (price_snapshot yf symbols) i)).
Proof.
  split.
  - rewrite price_snapshot_map, map_map.
    rewrite <- (map_id symbols) at 2. apply map_ext, snapshot_row_symbol.
  - intros i s Hi. split; [|split].
    + rewrite price_snapshot_map. now apply map_nth_error.
    + apply failed_lookup_row.
    + intros yf' E. rewrite !price_snapshot_map.
      rewrite (map_nth_error (snapshot_row yf') i symbols Hi).
      rewrite (map_nth_error (snapshot_row yf) i symbols Hi).
      f_equal. now apply snapshot_row_local.
Qed.

End Gateway.

(* ------------------------------------------------------------------ *)
(** * The engine on every ledger *)

Section Engine.

Import Pandas App.

Open Scope Qc_scope.

Lemma position_of_key (yf : Pricing.market) (df : list transaction) (k : key) :
  pos_key (position_of yf (net_of df k)) = k.
Proof. destruct k; reflexivity. Qed.

Lemma avg_cost_guard (df : list transaction) (k : key) :
  ~ 0 < Num.total (map units (group tx_key k (filter is_buy df))) ->
  Net.avg_cost (net_of df k) = 0.
Proof.
  intros H. apply gt0_false_iff in H. unfold net_of. cbn [Net.avg_cost].
  now rewrite H.
Qed.

Lemma pnl_pct_guard (yf : Pricing.market) (n : Net.t) :
  ~ 0 < Net.avg_cost n -> Position.pnl_pct (position_of yf n) = None.
Proof.
  intros H. apply gt0_false_iff in H.
  unfold position_of, valuation. cbn [Position.pnl_pct fst]. now rewrite H.
Qed.

(** C2: [compute_holdings] raises for no ledger: it always returns a frame
    of positions; in every row [avg_cost] is 0 when the sum of BUY units of
    the row's group is not positive, and [pnl_pct] is absent when [avg_cost]
    is not positive. *)
Theorem C2_never_raises (yf : Pricing.market) (tx : list transaction) :
  exists out,
    fst (run (compute_holdings yf tx)) = inr out
    /\ forall p, In p out ->
         (~ 0 < buy_units tx (pos_key p) -> Position.avg_cost p = 0)
         /\ (~ 0 < Position.avg_cost p -> Position.pnl_pct p = None).
Proof.
  destruct tx as [|t tx].
  - exists []. split; [reflexivity | intros p []].
  - eexists. split; [now rewrite run_compute_holdings|].
    intros p Hp. apply in_holdings in Hp. destruct Hp as (k & _ & ->).
    rewrite position_of_key. split.
    + apply avg_cost_guard.
    + apply pnl_pct_guard.
Qed.

Lemma missing_price_row (yf : Pricing.market) (n : Net.t) :
  last_of yf (Net.symbol n) = None ->
  Position.last (position_of yf n) = None
  /\ Position.value (position_of yf n) = None
  /\ Position.pnl (position_of yf n) = None
  /\ Position.pnl_pct (position_of yf n) = None.
Proof.
  intros H. unfold position_of, valuation.
  cbn [Position.last Position.value Position.pnl Position.pnl_pct fst snd].
  rewrite H. cbn [option_map].
  destruct (Num.gt0 (Net.avg_cost n)); auto.
Qed.

(** C3: in the frame returned for any ledger, a position whose symbol the
    price lookup reports without a [last] has [last], [value], [pnl] and
    [pnl_pct] absent; and the columns [symbol], [asset_type], [units],
    [avg_cost], [invested] of the frame are the same under any other
    answer of the lookup. *)
Theorem C3_missing_price (yf yf' : Pricing.market) (tx : list transaction) :
  exists out out',
    holdings yf tx = Some out
    /\ holdings yf' tx = Some out'
    /\ (forall p, In p out -> last_of yf (Position.symbol p) = None ->
          Position.last p = None /\ Position.value p = None
          /\ Position.pnl p = None /\ Position.pnl_pct p = None)
    /\ map basis out' = map basis out.
Proof.
  destruct tx as [|t tx].
  - exists [], []. split; [reflexivity|]. split; [reflexivity|].
    split; [intros p [] | reflexivity].
  - exists (sort_values_symbol (out_rows yf (t :: tx))),
           (sort_values_symbol (out_rows yf' (t :: tx))).
    split; [apply holdings_cons|]. split; [apply holdings_cons|]. split.
    + intros p Hp. apply in_holdings in Hp. destruct Hp as (k & _ & ->).
      apply missing_price_row.
    + unfold out_rows. now rewrite !basis_sorted.
Qed.

End Engine.

(* ------------------------------------------------------------------ *)
(** * Rows that move neither units nor cost *)

Section InertRows.

Import Pandas App.

Open Scope Qc_scope.

Lemma txn_type_upper_symbol (t : transaction) :
  txn_type (upper_symbol t) = txn_type t.
Proof. reflexivity. Qed.

(** A DIV row, or a row of an unrecognized kind, has zero signed units
    and is not among [buys]. *)
Lemma inert_normalized (t : transaction) :
  moves_units t = false ->
  signed_units (sip_to_buy (upper_symbol t)) = 0
  /\ is_buy (sip_to_buy (upper_symbol t)) = false.
Proof.
  unfold moves_units. rewrite !orb_false_iff. intros [[Hb Hs] Hp].
  unfold sip_to_buy. rewrite txn_type_upper_symbol, Hp.
  unfold signed_units, is_buy. rewrite txn_type_upper_symbol, Hs, Hb. auto.
Qed.

Lemma filter_none {A} (p : A -> bool) (l : list A) :
  (forall x, In x l -> p x = false) -> filter p l = [].
Proof.
  induction l as [|x l IH]; simpl; intros H; [reflexivity|].
  rewrite (H x (or_introl eq_refl)). apply IH. auto.
Qed.

Lemma filter_swap {A} (p q : A -> bool) (l : list A) :
  filter p (filter q l) = filter q (filter p l).
Proof.
  induction l as [|x l IH]; simpl; [reflexivity|].
  destruct (p x) eqn:P, (q x) eqn:Q; simpl; rewrite ?P, ?Q, IH; reflexivity.
Qed.

Lemma group_buys (k : key) (df : list transaction) :
  group tx_key k (filter is_buy df) = filter is_buy (group tx_key k df).
Proof. apply filter_swap. Qed.

Lemma in_group {A} (kf : A -> key) (k : key) (df : list A) (r : A) :
  In r (group kf k df) <-> In r df /\ kf r = k.
Proof. unfold group. now rewrite filter_In, key_eqb_eq. Qed.

Lemma in_normalized (tx : list transaction) (r : transaction) :
  In r (normalized tx) <-> exists t, In t tx /\ r = sip_to_buy (upper_symbol t).
Proof.
  unfold normalized. rewrite map_map, in_map_iff.
  split; intros (t & H1 & H2); exists t; auto.
Qed.

(** The row of [net] of a group made of inert rows only. *)
Lemma inert_group_net (tx : list transaction) (k : key) :
  (forall t, In t tx -> group_key t = k -> moves_units t = false) ->
  Net.units (net_of (normalized tx) k) = 0
  /\ Net.avg_cost (net_of (normalized tx) k) = 0
  /\ Net.invested (net_of (normalized tx) k) = 0.
Proof.
  intros H.
  assert (Hg : forall r, In r (group tx_key k (normalized tx)) ->
                 signed_units r = 0 /\ is_buy r = false).
  { intros r Hr. rewrite group_normalized in Hr.
    apply in_normalized in Hr. destruct Hr as (t & Ht & ->).
    apply in_group in Ht. destruct Ht as [Ht Hk].
    apply inert_normalized. now apply H. }
  unfold net_of.
  cbn [Net.units Net.avg_cost Net.invested].
  rewrite group_buys, (filter_none is_buy) by (intros r Hr; apply Hg, Hr).
  cbn [map Num.total fold_right]. rewrite gt0_zero.
  split; [|split; reflexivity].
  apply total_zeros.
  intros x Hx. apply in_map_iff in Hx. destruct Hx as (r & <- & Hr).
  apply Hg, Hr.
Qed.

(** C10: a (symbol, asset_type) key whose ledger rows are all DIV or of an
    unrecognized kind still has a row in the output of [compute_holdings],
    and every output row with that key has units = 0, avg_cost = 0 and
    invested = 0. *)
Theorem C10_inert_key_kept (yf : Pricing.market) (tx : list transaction)
    (k : key) :
  In k (map group_key tx) ->
  (forall t, In t tx -> group_key t = k -> moves_units t = false) ->
  exists out,
    holdings yf tx = Some out
    /\ (exists p, In p out /\ pos_key p = k)
    /\ forall p, In p out -> pos_key p = k ->
         Position.units p = 0 /\ Position.avg_cost p = 0
         /\ Position.invested p = 0.
Proof.
  intros Hk Hinert. destruct tx as [|t tx]; [destruct Hk|].
  eexists. split; [apply holdings_cons|]. split.
  - exists (position_of yf (net_of (normalized (t :: tx)) k)). split.
    + apply in_holdings. exists k. split; [|reflexivity].
      now rewrite keys_normalized.
    + apply position_of_key.
  - intros p Hp Hpk. apply in_holdings in Hp. destruct Hp as (k' & _ & ->).
    rewrite position_of_key in Hpk. subst k'.
    exact (inert_group_net (t :: tx) k Hinert).
Qed.

(** Appending to [df] a row of an existing group that has zero signed
    units and is not a BUY leaves [net] as it is. *)
Lemma net_frame_snoc_inert (df : list transaction) (r : transaction) :
  signed_units r = 0 -> is_buy r = false ->
  In (tx_key r) (map tx_key df) ->
  net_frame (df ++ [r]) = net_frame df.
Proof.
  intros Hs Hb Hk.
  rewrite !net_frame_eq, (group_keys_snoc_present tx_key df r Hk).
  apply map_ext. intros k. unfold net_of.
  rewrite filter_app. cbn [filter]. rewrite Hb, app_nil_r.
  rewrite group_app, map_app, total_app.
  replace (Num.total (map signed_units (group tx_key k [r]))) with 0.
  - now rewrite Qcplus_0_r.
  - unfold group. cbn [filter]. destruct (key_eqb (tx_key r) k); cbn.
    + now rewrite Hs, Qcplus_0_r.
    + reflexivity.
Qed.

Lemma normalized_app (tx tx' : list transaction) :
  normalized (tx ++ tx') = normalized tx ++ normalized tx'.
Proof. unfold normalized. now rewrite !map_app. Qed.

(** C7: a DIV transaction, or one whose txn_type is none of BUY, SELL, DIV,
    SIP, has zero signed units and is not a BUY row; appended to a ledger
    that already has its (symbol, asset_type) key, it leaves the columns
    [units], [avg_cost] and [invested] of every position as they were,
    whatever its units, price and fees and whatever the price lookup
    answers. *)
Theorem C7_inert_append (yf yf' : Pricing.market) (tx : list transaction)
    (t : transaction) :
  moves_units t = false ->
  In (group_key t) (map group_key tx) ->
  signed_units (sip_to_buy (upper_symbol t)) = 0
  /\ is_buy (sip_to_buy (upper_symbol t)) = false
  /\ option_map (map basis) (holdings yf' (tx ++ [t]))
     = option_map (map basis) (holdings yf tx).
Proof.
  intros Hm Hk. destruct (inert_normalized t Hm) as [Hs Hb].
  split; [exact Hs|]. split; [exact Hb|].
  destruct tx as [|t0 tx]; [destruct Hk|].
  change ((t0 :: tx) ++ [t]) with (t0 :: (tx ++ [t])).
  rewrite !basis_holdings.
  change (t0 :: (tx ++ [t])) with ((t0 :: tx) ++ [t]).
  rewrite normalized_app.
  change (normalized [t]) with [sip_to_buy (upper_symbol t)].
  rewrite net_frame_snoc_inert; [reflexivity | exact Hs | exact Hb |].
  rewrite keys_normalized. exact Hk.
Qed.

End InertRows.

(* ------------------------------------------------------------------ *)
(** * SIP rows are BUY rows *)

Section SipAsBuy.

Import Pandas App.

Open Scope Qc_scope.

Lemma sip_relabelled_normalized (t t' : transaction) :
  sip_relabelled t t' ->
  sip_to_buy (upper_symbol t') = sip_to_buy (upper_symbol t).
Proof.
  intros [u|u Hu]; [reflexivity|].
  unfold sip_to_buy. rewrite !txn_type_upper_symbol, Hu. reflexivity.
Qed.

Lemma relabelled_normalized (tx tx' : list transaction) :
  Forall2 sip_relabelled tx tx' -> normalized tx' = normalized tx.
Proof.
  unfold normalized. rewrite !map_map.
  induction 1 as [|t t' tx tx' Ht _ IH]; [reflexivity|].
  cbn [map]. now rewrite IH, (sip_relabelled_normalized t t' Ht).
Qed.

Lemma sip_row_as_buy (t : transaction) :
  txn_type t = "SIP"%string ->
  signed_units (sip_to_buy (upper_symbol t)) = units t
  /\ is_buy (sip_to_buy (upper_symbol t)) = true
  /\ cost (sip_to_buy (upper_symbol t)) = units t * price t + fees t.
Proof.
  intros H. unfold sip_to_buy. rewrite txn_type_upper_symbol, H.
  repeat split.
Qed.

(** C6: relabelling as BUY any of the SIP transactions of a ledger changes
    nothing in what [compute_holdings] does (its result and its call to the
    price lookup); a SIP row counts +units in the net units and
    units * price + fees in the cost, as a BUY row. *)
Theorem C6_sip_is_buy (yf : Pricing.market) (tx tx' : list transaction) :
  Forall2 sip_relabelled tx tx' ->
  run (compute_holdings yf tx') = run (compute_holdings yf tx)
  /\ forall t, In t tx -> txn_type t = "SIP"%string ->
       signed_units (sip_to_buy (upper_symbol t)) = units t
       /\ is_buy (sip_to_buy (upper_symbol t)) = true
       /\ cost (sip_to_buy (upper_symbol t)) = units t * price t + fees t.
Proof.
  intros H. split; [|intros t _; apply sip_row_as_buy].
  pose proof (relabelled_normalized tx tx' H) as E.
  destruct H as [|t t' tx tx' Ht Hr]; [reflexivity|].
  unfold compute_holdings. cbn [empty]. now rewrite E.
Qed.

End SipAsBuy.

(* ------------------------------------------------------------------ *)
(** * A purchase followed by a partial sale *)

Section BuyThenSell.

Import Pandas App.

Open Scope Qc_scope.

Lemma buy_row_normalized (b : transaction) :
  txn_type b = "BUY"%string ->
  signed_units (sip_to_buy (upper_symbol b)) = units b
  /\ is_buy (sip_to_buy (upper_symbol b)) = true
  /\ units (sip_to_buy (upper_symbol b)) = units b
  /\ cost (sip_to_buy (upper_symbol b)) = units b * price b + fees b.
Proof.
  intros H. unfold sip_to_buy. rewrite txn_type_upper_symbol, H. cbn.
  unfold signed_units, is_buy, cost. rewrite txn_type_upper_symbol, H.
  repeat split.
Qed.

Lemma sell_row_normalized (s : transaction) :
  txn_type s = "SELL"%string ->
  signed_units (sip_to_buy (upper_symbol s)) = - units s
  /\ is_buy (sip_to_buy (upper_symbol s)) = false.
Proof.
  intros H. unfold sip_to_buy. rewrite txn_type_upper_symbol, H. cbn.
  unfold signed_units, is_buy. rewrite txn_type_upper_symbol, H.
  repeat split.
Qed.

(** C1: when the rows of one (symbol, asset_type) key are a BUY of 10
    units at price 100 with fees 5 followed by a SELL of 4 units at price
    120, [compute_holdings] returns a position for that key, and each
    position of that key has units = 6, invested = 1005 and
    avg_cost = 100.5. *)
Theorem C1_buy_then_sell (yf : Pricing.market) (tx : list transaction)
    (k : key) (b s : transaction) :
  group group_key k tx = [b; s] ->
  txn_type b = "BUY"%string ->
  units b = Num.lit 10 -> price b = Num.lit 100 -> fees b = Num.lit 5 ->
  txn_type s = "SELL"%string ->
  units s = Num.lit 4 -> price s = Num.lit 120 ->
  exists out,
    holdings yf tx = Some out
    /\ (exists p, In p out /\ pos_key p = k)
    /\ forall p, In p out -> pos_key p = k ->
         Position.units p = Num.lit 6
         /\ Position.invested p = Num.lit 1005
         /\ Position.avg_cost p = Q2Qc (201 # 2).
Proof.
  intros Hg Hb Hbu Hbp Hbf Hs Hsu Hsp.
  assert (Hin : In b tx /\ group_key b = k).
  { apply in_group. rewrite Hg. now left. }
  destruct Hin as [Hin Hkb].
  destruct tx as [|t tx]; [destruct Hin|].
  eexists. split; [apply holdings_cons|]. split.
  - exists (position_of yf (net_of (normalized (t :: tx)) k)). split.
    + apply in_holdings. exists k. split; [|reflexivity].
      rewrite keys_normalized, <- Hkb. now apply in_map.
    + apply position_of_key.
  - intros p Hp Hpk. apply in_holdings in Hp. destruct Hp as (k' & _ & ->).
    rewrite position_of_key in Hpk. subst k'.
    destruct (buy_row_normalized b Hb) as (B1 & B2 & B3 & B4).
    destruct (sell_row_normalized s Hs) as (S1 & S2).
    unfold position_of, valuation, net_of.
    cbn [Position.units Position.avg_cost Position.invested fst
         Net.units Net.avg_cost Net.invested].
    rewrite group_buys, group_normalized, Hg.
    unfold normalized. cbn [map filter Num.total fold_right].
    rewrite B2, S2. cbn [map Num.total fold_right].
    rewrite B1, S1, B3, B4, Hbu, Hbp, Hbf, Hsu.
    repeat split; apply Qc_is_canon; reflexivity.
Qed.

End BuyThenSell.

(* ------------------------------------------------------------------ *)
(** * The call to the price lookup and the keys of the output *)

Section Keys.

Import Pandas App.

(** For a non-empty ledger the engine calls [price_snapshot] once, with
    the symbol column of the group labels, one entry per label. *)
Lemma lookups_once (yf : Pricing.market) (t : transaction)
    (tx : list transaction) :
  lookups yf (t :: tx) = [map fst (group_keys tx_key (normalized (t :: tx)))].
Proof.
  unfold lookups. rewrite run_compute_holdings. cbn [snd].
  now rewrite <- net_frame_symbol_keys, map_map.
Qed.

(** The keys of the output are the keys of the ledger, symbols
    uppercased. *)
Lemma holdings_keys (yf : Pricing.market) (t : transaction)
    (tx : list transaction) (k : key) :
  In k (map pos_key (sort_values_symbol (out_rows yf (t :: tx))))
  <-> In k (map group_key (t :: tx)).
Proof.
  rewrite in_map_iff, <- keys_normalized. split.
  - intros (p & <- & Hp). apply in_holdings in Hp.
    destruct Hp as (k' & Hk' & ->). now rewrite position_of_key.
  - intros Hk. exists (position_of yf (net_of (normalized (t :: tx)) k)).
    split; [apply position_of_key|].
    apply in_holdings. now exists k.
Qed.

Lemma filter_eqb_unique (x : string) (l : list string) :
  NoDup l -> In x l -> filter (String.eqb x) l = [x].
Proof.
  induction 1 as [|y l Hy Hnd IH]; intros Hin; [destruct Hin|].
  cbn [filter]. destruct (String.eqb x y) eqn:E.
  - apply String.eqb_eq in E. subst y. f_equal.
    apply filter_none. intros z Hz. apply String.eqb_neq. congruence.
  - apply String.eqb_neq in E. destruct Hin as [->|Hin]; [congruence|].
    now apply IH.
Qed.

Lemma replicated_unique_aux (net : list Net.t) (symbols : list string) :
  NoDup symbols ->
  (forall n, In n net -> In (Net.symbol n) symbols) ->
  replicated net symbols = net.
Proof.
  intros Hnd. unfold replicated.
  induction net as [|n net IH]; intros Hin; [reflexivity|].
  cbn [flat_map].
  rewrite (filter_eqb_unique (Net.symbol n) symbols Hnd)
    by (apply Hin; now left).
  cbn [map app]. f_equal. apply IH. intros m Hm. apply Hin. now right.
Qed.

(** When no symbol of the ledger is held under two asset types, the
    output has one position per key. *)
Lemma positions_unique (yf : Pricing.market) (t : transaction)
    (tx : list transaction) :
  NoDup (map fst (group_keys tx_key (normalized (t :: tx)))) ->
  NoDup (map pos_key (sort_values_symbol (out_rows yf (t :: tx)))).
Proof.
  intros Hnd. rewrite <- net_frame_symbol_keys, map_map in Hnd.
  unfold out_rows.
  rewrite (replicated_unique_aux _ _ Hnd) by (intros n Hn; now apply in_map).
  apply (Permutation_NoDup
           (l := map pos_key
                   (map (position_of yf) (net_frame (normalized (t :: tx)))))).
  - apply Permutation_map, Permutation_sym, sort_by_perm.
  - rewrite map_map.
    rewrite (map_ext _ (fun n => (Net.symbol n, Net.asset_type n)))
      by reflexivity.
    rewrite net_frame_symbol_keys. apply NoDup_group_keys.
Qed.

(** Rows whose symbols agree once uppercased, under one asset type, fall
    in one group. *)
Lemma same_group_up_to_case (t t' : transaction) :
  str_upper (symbol t) = str_upper (symbol t') ->
  asset_type t = asset_type t' ->
  group_key t = group_key t'.
Proof. rewrite !group_key_eq. now intros -> ->. Qed.

Example aapl_lower_and_upper (yf : Pricing.market) :
  option_map (map pos_key)
    (holdings yf [Examples.row "aapl" "stock" "BUY" 10 100 5;
                  Examples.row "AAPL" "stock" "BUY" 4 120 0])
  = Some [("AAPL", "stock")]%string.
Proof. rewrite holdings_cons. vm_compute. reflexivity. Qed.

(** C4: on the ledger that holds AAPL once as a stock and once as an etf,
    [compute_holdings] returns four rows, two for each of the keys
    (AAPL, etf) and (AAPL, stock): the keys of the output repeat. *)
Theorem C4_two_asset_types_rows (yf : Pricing.market) :
  exists out,
    holdings yf Examples.two_asset_types = Some out
    /\ map pos_key out
       = [("AAPL", "etf"); ("AAPL", "etf");
          ("AAPL", "stock"); ("AAPL", "stock")]%string
    /\ ~ NoDup (map pos_key out).
Proof.
  exists (sort_values_symbol (out_rows yf Examples.two_asset_types)).
  split; [exact (holdings_cons yf _ _)|].
  assert (E : map pos_key
                (sort_values_symbol (out_rows yf Examples.two_asset_types))
              = [("AAPL", "etf"); ("AAPL", "etf");
                 ("AAPL", "stock"); ("AAPL", "stock")]%string).
  { vm_compute. reflexivity. }
  split; [exact E|].
  rewrite E. intros H. apply NoDup_cons_iff in H.
  destruct H as [H _]. apply H. now left.
Qed.

(** C5: on the ledger that holds AAPL once as a stock and once as an etf,
    [compute_holdings] makes one call to the price lookup, and its argument
    lists AAPL twice. *)
Theorem C5_two_asset_types_call (yf : Pricing.market) :
  lookups yf Examples.two_asset_types = [["AAPL"; "AAPL"]%string].
Proof.
  unfold Examples.two_asset_types. rewrite lookups_once.
  vm_compute. reflexivity.
Qed.

End Keys.

(* ------------------------------------------------------------------ *)
(** * The theorems at the example ledgers *)

Section Worked.

Import Pandas App.

Open Scope string_scope.

(** The purchase of 10 and the sale of 4, next to a MSFT row, AAPL priced. *)
Lemma C1_buy_then_sell_witness :
  group group_key ("AAPL", "stock") Examples.buy_then_sell
  = [Examples.buy_10; Examples.sell_4]
  /\ exists out,
       holdings Examples.aapl_only Examples.buy_then_sell = Some out
       /\ (exists p, In p out /\ pos_key p = ("AAPL", "stock"))
       /\ forall p, In p out -> pos_key p = ("AAPL", "stock") ->
            Position.units p = Num.lit 6
            /\ Position.invested p = Num.lit 1005
            /\ Position.avg_cost p = Q2Qc (201 # 2).
Proof.
  split; [reflexivity|].
  apply (C1_buy_then_sell Examples.aapl_only Examples.buy_then_sell
           ("AAPL", "stock") Examples.buy_10 Examples.sell_4); reflexivity.
Defined.

(** A ledger with one SIP row, and the same ledger with it relabelled. *)
Lemma C6_sip_is_buy_witness :
  Forall2 sip_relabelled Examples.sip_ledger Examples.sip_ledger_relabelled
  /\ run (compute_holdings Examples.aapl_only Examples.sip_ledger_relabelled)
     = run (compute_holdings Examples.aapl_only Examples.sip_ledger).
Proof.
  assert (H : Forall2 sip_relabelled
                Examples.sip_ledger Examples.sip_ledger_relabelled).
  { constructor; [apply relabel_sip; reflexivity|].
    constructor; [apply relabel_none | constructor]. }
  split; [exact H|].
  exact (proj1 (C6_sip_is_buy Examples.aapl_only
                  Examples.sip_ledger Examples.sip_ledger_relabelled H)).
Defined.

(** A dividend on aapl appended to a ledger that holds AAPL. *)
Lemma C7_inert_append_witness :
  moves_units Examples.dividend = false
  /\ In (group_key Examples.dividend)
        (map group_key [Examples.row "AAPL" "stock" "BUY" 10 100 5])
  /\ option_map (map basis)
       (holdings Examples.offline
          ([Examples.row "AAPL" "stock" "BUY" 10 100 5] ++ [Examples.dividend]))
     = option_map (map basis)
         (holdings Examples.aapl_only
            [Examples.row "AAPL" "stock" "BUY" 10 100 5]).
Proof.
  assert (Hm : moves_units Examples.dividend = false) by reflexivity.
  assert (Hk : In (group_key Examples.dividend)
                  (map group_key [Examples.row "AAPL" "stock" "BUY" 10 100 5])).
  { left. reflexivity. }
  split; [exact Hm|]. split; [exact Hk|].
  exact (proj2 (proj2 (C7_inert_append Examples.aapl_only Examples.offline
                         [Examples.row "AAPL" "stock" "BUY" 10 100 5]
                         Examples.dividend Hm Hk))).
Defined.

(** MSFT has a dividend and a row of an unknown kind, and nothing else. *)
Lemma C10_inert_key_kept_witness :
  exists out,
    holdings Examples.aapl_only Examples.dividends_only = Some out
    /\ (exists p, In p out /\ pos_key p = ("MSFT", "stock"))
    /\ forall p, In p out -> pos_key p = ("MSFT", "stock") ->
         Position.units p = 0%Qc /\ Position.avg_cost p = 0%Qc
         /\ Position.invested p = 0%Qc.
Proof.
  apply (C10_inert_key_kept Examples.aapl_only Examples.dividends_only
           ("MSFT", "stock")).
  - left. reflexivity.
  - intros t [<-|[<-|[<-|[]]]] E;
      [reflexivity | discriminate E | reflexivity].
Defined.

End Worked.

(* ------------------------------------------------------------------ *)
(** * Order: what the sorts produce *)

Section SortedFacts.

Import Pandas.

Context {A : Type} (le : A -> A -> bool).

Hypothesis le_total : forall a b, le a b = false -> le b a = true.

Let R (a b : A) : Prop := le a b = true.

Lemma insert_by_hd (x y : A) (l : list A) :
  HdRel R y l -> R y x -> HdRel R y (insert_by le x l).
Proof.
  intros Hl Hx. destruct l as [|z l]; cbn [insert_by]; [now constructor|].
  destruct (le x z); constructor; [exact Hx|].
  now inversion Hl.
Qed.

Lemma insert_by_sorted (x : A) (l : list A) :
  Sorted R l -> Sorted R (insert_by le x l).
Proof.
  induction 1 as [|y l Hs IH Hd]; cbn [insert_by].
  - repeat constructor.
  - destruct (le x y) eqn:E.
    + constructor; [now constructor | now constructor].
    + constructor; [exact IH|].
      apply insert_by_hd; [exact Hd | now apply le_total].
Qed.

Lemma sort_by_sorted (l : list A) : Sorted R (sort_by le l).
Proof.
  induction l as [|x l IH]; cbn; [constructor|].
  now apply insert_by_sorted.
Qed.

End SortedFacts.

Section StringOrder.

Lemma string_leb_total (a b : string) :
  String.leb a b = false -> String.leb b a = true.
Proof.
  unfold String.leb. rewrite (String.compare_antisym b a).
  destruct (String.compare a b); cbn; congruence.
Qed.

Lemma string_compare_refl (a : string) : String.compare a a = Eq.
Proof. now apply String_as_OT.cmp_eq. Qed.

Lemma string_compare_lt_trans (a b c : string) :
  String.compare a b = Lt -> String.compare b c = Lt ->
  String.compare a c = Lt.
Proof.
  intros H1 H2. apply String_as_OT.cmp_lt.
  apply String_as_OT.lt_trans with b; now apply String_as_OT.cmp_lt.
Qed.

Lemma string_leb_trans (a b c : string) :
  String.leb a b = true -> String.leb b c = true -> String.leb a c = true.
Proof.
  unfold String.leb. intros H1 H2.
  destruct (String.compare a b) eqn:E1; try discriminate;
    destruct (String.compare b c) eqn:E2; try discriminate.
  - apply String.compare_eq_iff in E1, E2. subst.
    now rewrite string_compare_refl.
  - apply String.compare_eq_iff in E1. subst. now rewrite E2.
  - apply String.compare_eq_iff in E2. subst. now rewrite E1.
  - now rewrite (string_compare_lt_trans a b c E1 E2).
Qed.

Lemma string_leb_antisym (a b : string) :
  String.leb a b = true -> String.leb b a = true -> a = b.
Proof.
  unfold String.leb. rewrite (String.compare_antisym b a).
  destruct (String.compare a b) eqn:E; cbn; try discriminate.
  intros _ _. now apply String.compare_eq_iff.
Qed.

End StringOrder.

Section HoldingsOrder.

Import Pandas App.

(** X1: for every ledger [compute_holdings] returns a frame whose rows
    are in ascending order of [symbol]. *)
Theorem holdings_sorted_by_symbol (yf : Pricing.market)
    (tx : list transaction) :
  exists out,
    holdings yf tx = Some out
    /\ Sorted (fun a b =>
                 String.leb (Position.symbol a) (Position.symbol b) = true)
              out.
Proof.
  destruct tx as [|t tx].
  - exists []. split; [reflexivity | constructor].
  - eexists. split; [apply holdings_cons|].
    unfold sort_values_symbol.
    apply (sort_by_sorted
             (fun a b => String.leb (Position.symbol a) (Position.symbol b))).
    intros a b. apply string_leb_total.
Qed.

End HoldingsOrder.

(* ------------------------------------------------------------------ *)
(** * The order of the ledger rows does not matter *)

Section KeyOrder.

Import Pandas.

Lemma key_leb_total (a b : key) : key_leb a b = false -> key_leb b a = true.
Proof.
  unfold key_leb. rewrite (String.compare_antisym (fst b) (fst a)).
  destruct (String.compare (fst a) (fst b)); cbn; try congruence.
  apply string_leb_total.
Qed.

Lemma key_leb_antisym (a b : key) :
  key_leb a b = true -> key_leb b a = true -> a = b.
Proof.
  destruct a as [a1 a2], b as [b1 b2]. unfold key_leb. cbn [fst snd].
  rewrite (String.compare_antisym b1 a1).
  destruct (String.compare a1 b1) eqn:E; cbn; try discriminate.
  apply String.compare_eq_iff in E. subst b1.
  intros H1 H2. f_equal. now apply string_leb_antisym.
Qed.

Lemma key_leb_trans (a b c : key) :
  key_leb a b = true -> key_leb b c = true -> key_leb a c = true.
Proof.
  destruct a as [a1 a2], b as [b1 b2], c as [c1 c2].
  unfold key_leb. cbn [fst snd].
  destruct (String.compare a1 b1) eqn:E1; try discriminate;
    destruct (String.compare b1 c1) eqn:E2; try discriminate.
  - apply String.compare_eq_iff in E1, E2. subst.
    rewrite string_compare_refl. apply string_leb_trans.
  - apply String.compare_eq_iff in E1. subst. now rewrite E2.
  - apply String.compare_eq_iff in E2. subst. now rewrite E1.
  - now rewrite (string_compare_lt_trans a1 b1 c1 E1 E2).
Qed.

(** Two sorted lists with the same elements are the same list. *)
Lemma sorted_keys_unique (l l' : list key) :
  Sorted (fun a b => key_leb a b = true) l ->
  Sorted (fun a b => key_leb a b = true) l' ->
  Permutation l l' -> l = l'.
Proof.
  intros Hl Hl'.
  assert (T : Relations_1.Transitive (fun a b : key => key_leb a b = true)).
  { intros a b c. apply key_leb_trans. }
  apply (Sorted_StronglySorted T) in Hl.
  apply (Sorted_StronglySorted T) in Hl'.
  revert l' Hl'. induction Hl as [|x l Hs IH Hx]; intros l' Hl' P.
  - now apply Permutation_nil in P.
  - destruct Hl' as [|y l' Hs' Hy].
    + apply Permutation_sym, Permutation_nil in P. discriminate.
    + assert (E : x = y).
      { assert (Hxy : In x (y :: l')).
        { apply (Permutation_in x P). now left. }
        assert (Hyx : In y (x :: l)).
        { apply (Permutation_in y (Permutation_sym P)). now left. }
        destruct Hxy as [->|Hxy]; [reflexivity|].
        destruct Hyx as [->|Hyx]; [reflexivity|].
        rewrite Forall_forall in Hx, Hy.
        apply key_leb_antisym; [apply Hx, Hyx | apply Hy, Hxy]. }
      subst y. f_equal. apply IH; [exact Hs'|].
      now apply Permutation_cons_inv in P.
Qed.

Lemma group_keys_perm {A} (kf : A -> key) (df df' : list A) :
  Permutation df df' -> group_keys kf df = group_keys kf df'.
Proof.
  intros P. unfold group_keys.
  apply sorted_keys_unique.
  - apply sort_by_sorted, key_leb_total.
  - apply sort_by_sorted, key_leb_total.
  - rewrite !sort_by_perm.
    apply NoDup_Permutation; try apply NoDup_uniques.
    intros k. rewrite !in_uniques.
    split; apply Permutation_in; [|apply Permutation_sym];
      now apply Permutation_map.
Qed.

Lemma filter_perm {A} (p : A -> bool) (l l' : list A) :
  Permutation l l' -> Permutation (filter p l) (filter p l').
Proof.
  induction 1 as [|x l l' _ IH|x y l|l l' l'' _ IH1 _ IH2]; cbn.
  - constructor.
  - destruct (p x); [now constructor | exact IH].
  - destruct (p x), (p y); try reflexivity. apply perm_swap.
  - now transitivity (filter p l').
Qed.

Lemma total_perm (xs ys : list Num.real) :
  Permutation xs ys -> Num.total xs = Num.total ys.
Proof.
  unfold Num.total.
  induction 1 as [|x l l' _ IH|x y l|l l' l'' _ IH1 _ IH2]; cbn [fold_right].
  - reflexivity.
  - now rewrite IH.
  - rewrite !Qcplus_assoc. f_equal. apply Qcplus_comm.
  - congruence.
Qed.

End KeyOrder.

Section LedgerOrder.

Import Pandas App.

Lemma group_total_perm (f : transaction -> Num.real) (k : key)
    (df df' : list transaction) :
  Permutation df df' ->
  Num.total (map f (group tx_key k df))
  = Num.total (map f (group tx_key k df')).
Proof.
  intros P. apply total_perm, Permutation_map. unfold group.
  now apply filter_perm.
Qed.

Lemma net_of_perm (df df' : list transaction) (k : key) :
  Permutation df df' -> net_of df k = net_of df' k.
Proof.
  intros P. unfold net_of.
  rewrite (group_total_perm signed_units k df df' P).
  rewrite (group_total_perm units k (filter is_buy df) (filter is_buy df')
             (filter_perm is_buy df df' P)).
  rewrite (group_total_perm cost k (filter is_buy df) (filter is_buy df')
             (filter_perm is_buy df df' P)).
  reflexivity.
Qed.

Lemma net_frame_perm (df df' : list transaction) :
  Permutation df df' -> net_frame df = net_frame df'.
Proof.
  intros P. rewrite !net_frame_eq, (group_keys_perm tx_key df df' P).
  apply map_ext. intros k. now apply net_of_perm.
Qed.

(** X2: reordering the rows of a ledger changes nothing in what
    [compute_holdings] does: the same frame, row for row, and the same call
    to the price lookup (in exact arithmetic). *)
Theorem holdings_ledger_order (yf : Pricing.market)
    (tx tx' : list transaction) :
  Permutation tx tx' ->
  run (compute_holdings yf tx') = run (compute_holdings yf tx).
Proof.
  intros P.
  assert (N : net_frame (normalized tx') = net_frame (normalized tx)).
  { apply net_frame_perm. unfold normalized.
    now apply Permutation_map, Permutation_map, Permutation_sym. }
  destruct tx as [|t tx].
  - apply Permutation_nil in P. now subst.
  - destruct tx' as [|t' tx'].
    + apply Permutation_sym, Permutation_nil in P. discriminate.
    + rewrite !run_compute_holdings. unfold out_rows. now rewrite N.
Qed.

End LedgerOrder.

(* ------------------------------------------------------------------ *)
(** * One more row in a group that is already there *)

Section OneMoreRow.

Import Pandas App.

Open Scope Qc_scope.

Lemma sort_by_ext {A} (le le' : A -> A -> bool) (l : list A) :
  (forall a b, le a b = le' a b) -> sort_by le l = sort_by le' l.
Proof.
  intros E. unfold sort_by.
  induction l as [|x l IH]; cbn [fold_right]; [reflexivity|].
  rewrite IH. generalize (fold_right (insert_by le') [] l). intros m.
  induction m as [|y m IHm]; cbn [insert_by]; [reflexivity|].
  now rewrite E, IHm.
Qed.

Lemma sorted_positions (yf : Pricing.market) (l : list Net.t) :
  sort_values_symbol (map (position_of yf) l)
  = map (position_of yf) (sort_by net_le l).
Proof.
  unfold sort_values_symbol.
  apply (sort_by_map (position_of yf)
           (fun a b => String.leb (Position.symbol a) (Position.symbol b))).
Qed.

Lemma replicated_map (g : Net.t -> Net.t) (net : list Net.t)
    (symbols : list string) :
  (forall n, Net.symbol (g n) = Net.symbol n) ->
  replicated (map g net) symbols = map g (replicated net symbols).
Proof.
  intros Hg. unfold replicated.
  induction net as [|n net IH]; cbn [map flat_map]; [reflexivity|].
  now rewrite map_app, IH, map_map, Hg.
Qed.

(** The rows behind the output, when every row of [net] is changed by a
    function that keeps its symbol. *)
Lemma out_rows_map (g : Net.t -> Net.t) (net : list Net.t) :
  (forall n, Net.symbol (g n) = Net.symbol n) ->
  sort_by net_le (replicated (map g net) (map Net.symbol (map g net)))
  = map g (sort_by net_le (replicated net (map Net.symbol net))).
Proof.
  intros Hg.
  rewrite map_map, (map_ext _ Net.symbol Hg), (replicated_map g _ _ Hg).
  rewrite (sort_by_map g net_le).
  f_equal. apply sort_by_ext. intros a b. unfold net_le. now rewrite !Hg.
Qed.

Lemma net_key_of (df : list transaction) (k : key) :
  (Net.symbol (net_of df k), Net.asset_type (net_of df k)) = k.
Proof. now destruct k. Qed.

(** [net] after one more row in an existing group: the row of that group
    is recomputed, the others stay. *)
Lemma net_frame_snoc (df : list transaction) (r : transaction) :
  In (tx_key r) (map tx_key df) ->
  net_frame (df ++ [r])
  = map (fun n =>
           if key_eqb (Net.symbol n, Net.asset_type n) (tx_key r)
           then net_of (df ++ [r]) (tx_key r) else n)
        (net_frame df).
Proof.
  intros Hk.
  rewrite !net_frame_eq, (group_keys_snoc_present tx_key df r Hk), map_map.
  apply map_ext. intros k. rewrite net_key_of.
  destruct (key_eqb k (tx_key r)) eqn:E.
  - apply key_eqb_eq in E. now subst k.
  - assert (G : forall l, group tx_key k (l ++ [r]) = group tx_key k l).
    { intros l. rewrite group_app. unfold group at 2. cbn [filter].
      assert (E' : key_eqb (tx_key r) k = false).
      { destruct (key_eqb (tx_key r) k) eqn:X; [|reflexivity].
        apply key_eqb_eq in X. subst k. now rewrite key_eqb_refl in E. }
      rewrite E'. apply app_nil_r. }
    unfold net_of. rewrite G, filter_app. cbn [filter].
    destruct (is_buy r); [rewrite G | rewrite app_nil_r]; reflexivity.
Qed.

Lemma in_out_rows (df : list transaction) (n : Net.t) :
  In n (sort_by net_le
          (replicated (net_frame df) (map Net.symbol (net_frame df)))) ->
  n = net_of df (Net.symbol n, Net.asset_type n).
Proof.
  rewrite in_sort_by, in_replicated, net_frame_eq, in_map_iff.
  intros (k & <- & _). now rewrite net_key_of.
Qed.

Lemma group_own (r : transaction) :
  group tx_key (tx_key r) [r] = [r].
Proof. unfold group. cbn [filter]. now rewrite key_eqb_refl. Qed.

Lemma net_of_snoc_units (df : list transaction) (r : transaction) :
  Net.units (net_of (df ++ [r]) (tx_key r))
  = Net.units (net_of df (tx_key r)) + signed_units r.
Proof.
  unfold net_of. cbn [Net.units].
  rewrite group_app, map_app, total_app, group_own. cbn.
  now rewrite Qcplus_0_r.
Qed.

Lemma net_of_snoc_not_buy (df : list transaction) (r : transaction) :
  is_buy r = false ->
  Net.avg_cost (net_of (df ++ [r]) (tx_key r))
  = Net.avg_cost (net_of df (tx_key r))
  /\ Net.invested (net_of (df ++ [r]) (tx_key r))
     = Net.invested (net_of df (tx_key r)).
Proof.
  intros Hb. unfold net_of. cbn [Net.avg_cost Net.invested].
  rewrite filter_app. cbn [filter]. rewrite Hb, app_nil_r. auto.
Qed.

Lemma net_of_snoc_buy (df : list transaction) (r : transaction) :
  is_buy r = true ->
  Net.invested (net_of (df ++ [r]) (tx_key r))
  = Net.invested (net_of df (tx_key r)) + cost r.
Proof.
  intros Hb. unfold net_of. cbn [Net.invested].
  rewrite filter_app. cbn [filter]. rewrite Hb.
  rewrite group_app, map_app, total_app, group_own. cbn.
  now rewrite Qcplus_0_r.
Qed.

Ltac open_rows :=
  unfold pos_key, position_of, valuation, group_key;
  cbn [Position.units Position.avg_cost Position.invested Position.symbol
       Position.asset_type fst].

(** The two outputs, before and after one more row, over the same rows
    of [net]. *)
Lemma holdings_snoc (yf yf' : Pricing.market) (tx : list transaction)
    (t : transaction) :
  In (group_key t) (map group_key tx) ->
  let df := normalized tx in
  let r := sip_to_buy (upper_symbol t) in
  let g := fun n =>
             if key_eqb (Net.symbol n, Net.asset_type n) (tx_key r)
             then net_of (df ++ [r]) (tx_key r) else n in
  let rows := sort_by net_le
                (replicated (net_frame df) (map Net.symbol (net_frame df))) in
  holdings yf tx = Some (map (position_of yf) rows)
  /\ holdings yf' (tx ++ [t]) = Some (map (fun n => position_of yf' (g n)) rows)
  /\ (forall n, Net.symbol (g n) = Net.symbol n
                /\ Net.asset_type (g n) = Net.asset_type n).
Proof.
  intros Hk df r g rows.
  assert (Hg : forall n, Net.symbol (g n) = Net.symbol n
                         /\ Net.asset_type (g n) = Net.asset_type n).
  { intros n. unfold g.
    destruct (key_eqb (Net.symbol n, Net.asset_type n) (tx_key r)) eqn:E;
      [|split; reflexivity].
    apply key_eqb_eq in E. rewrite <- E. split; reflexivity. }
  destruct tx as [|t0 tx]; [destruct Hk|].
  split; [|split; [|exact Hg]].
  - rewrite holdings_cons. unfold out_rows. now rewrite sorted_positions.
  - change ((t0 :: tx) ++ [t]) with (t0 :: (tx ++ [t])).
    rewrite holdings_cons. unfold out_rows.
    change (t0 :: (tx ++ [t])) with ((t0 :: tx) ++ [t]).
    rewrite normalized_app.
    change (normalized [t]) with [r]. fold df.
    rewrite net_frame_snoc
      by (unfold df; rewrite keys_normalized; exact Hk).
    fold g. rewrite sorted_positions.
    rewrite (out_rows_map g (net_frame df) (fun n => proj1 (Hg n))).
    fold rows. now rewrite map_map.
Qed.

(** X3: a SELL appended to a ledger that already has its
    (symbol, asset_type) key leaves the keys, [avg_cost] and [invested] of
    every position as they were, and lowers [units] by the units sold in
    the positions of that key only. *)
Theorem sell_keeps_cost_basis (yf yf' : Pricing.market)
    (tx : list transaction) (t : transaction) :
  txn_type t = "SELL"%string ->
  In (group_key t) (map group_key tx) ->
  exists out out',
    holdings yf tx = Some out
    /\ holdings yf' (tx ++ [t]) = Some out'
    /\ map pos_key out' = map pos_key out
    /\ map Position.avg_cost out' = map Position.avg_cost out
    /\ map Position.invested out' = map Position.invested out
    /\ map Position.units out'
       = map (fun p => if key_eqb (pos_key p) (group_key t)
                       then Position.units p - units t
                       else Position.units p) out.
Proof.
  intros Ht Hk.
  destruct (holdings_snoc yf yf' tx t Hk) as (H1 & H2 & Hg).
  destruct (sell_row_normalized t Ht) as [Hs Hb].
  eexists. eexists. split; [exact H1|]. split; [exact H2|].
  rewrite !map_map.
  split; [|split; [|split]]; apply map_ext_in; intros n Hn; open_rows.
  - now rewrite (proj1 (Hg n)), (proj2 (Hg n)).
  - destruct (key_eqb _ _) eqn:E; [|reflexivity].
    apply key_eqb_eq in E. rewrite (in_out_rows _ n Hn), E.
    apply (net_of_snoc_not_buy _ _ Hb).
  - destruct (key_eqb _ _) eqn:E; [|reflexivity].
    apply key_eqb_eq in E. rewrite (in_out_rows _ n Hn), E.
    apply (net_of_snoc_not_buy _ _ Hb).
  - destruct (key_eqb _ _) eqn:E; [|reflexivity].
    apply key_eqb_eq in E. rewrite (in_out_rows _ n Hn), E.
    rewrite net_of_snoc_units, Hs. reflexivity.
Qed.

(** X4: a BUY or SIP appended to a ledger that already has its
    (symbol, asset_type) key raises, in the positions of that key only,
    [units] by its units and [invested] by units * price + fees. *)
Theorem buy_adds_to_basis (yf yf' : Pricing.market)
    (tx : list transaction) (t : transaction) :
  txn_type t = "BUY"%string \/ txn_type t = "SIP"%string ->
  In (group_key t) (map group_key tx) ->
  exists out out',
    holdings yf tx = Some out
    /\ holdings yf' (tx ++ [t]) = Some out'
    /\ map pos_key out' = map pos_key out
    /\ map Position.units out'
       = map (fun p => if key_eqb (pos_key p) (group_key t)
                       then Position.units p + units t
                       else Position.units p) out
    /\ map Position.invested out'
       = map (fun p => if key_eqb (pos_key p) (group_key t)
                       then Position.invested p + (units t * price t + fees t)
                       else Position.invested p) out.
Proof.
  intros Ht Hk.
  destruct (holdings_snoc yf yf' tx t Hk) as (H1 & H2 & Hg).
  assert (Hr : signed_units (sip_to_buy (upper_symbol t)) = units t
               /\ is_buy (sip_to_buy (upper_symbol t)) = true
               /\ cost (sip_to_buy (upper_symbol t))
                  = units t * price t + fees t).
  { destruct Ht as [Ht|Ht].
    - destruct (buy_row_normalized t Ht) as (B1 & B2 & _ & B4). auto.
    - apply sip_row_as_buy, Ht. }
  destruct Hr as (Hs & Hb & Hc).
  eexists. eexists. split; [exact H1|]. split; [exact H2|].
  rewrite !map_map.
  split; [|split]; apply map_ext_in; intros n Hn; open_rows.
  - now rewrite (proj1 (Hg n)), (proj2 (Hg n)).
  - destruct (key_eqb _ _) eqn:E; [|reflexivity].
    apply key_eqb_eq in E. rewrite (in_out_rows _ n Hn), E.
    rewrite net_of_snoc_units, Hs. reflexivity.
  - destruct (key_eqb _ _) eqn:E; [|reflexivity].
    apply key_eqb_eq in E. rewrite (in_out_rows _ n Hn), E.
    rewrite (net_of_snoc_buy _ _ Hb), Hc. reflexivity.
Qed.

End OneMoreRow.

(* ------------------------------------------------------------------ *)
(** * Sales without a recorded purchase *)

Section SellOnly.

Import Pandas App Ledger.

Open Scope Qc_scope.

Lemma not_purchase_normalized (t : transaction) :
  txn_type t <> "BUY"%string -> txn_type t <> "SIP"%string ->
  is_buy (sip_to_buy (upper_symbol t)) = false
  /\ signed_units (sip_to_buy (upper_symbol t))
     = if is_sell t then - units t else 0.
Proof.
  intros Hb Hp. apply String.eqb_neq in Hb, Hp.
  unfold sip_to_buy. rewrite txn_type_upper_symbol, Hp.
  unfold is_buy, signed_units, is_sell. rewrite txn_type_upper_symbol, Hb.
  split; [reflexivity|]. now destruct (String.eqb (txn_type t) "SELL").
Qed.

Lemma total_cons (x : Num.real) (xs : list Num.real) :
  Num.total (x :: xs) = x + Num.total xs.
Proof. reflexivity. Qed.

Lemma signed_units_of_sales (l : list transaction) :
  (forall t, In t l -> txn_type t <> "BUY"%string /\ txn_type t <> "SIP"%string) ->
  Num.total (map signed_units (normalized l))
  = - Num.total (map units (filter is_sell l)).
Proof.
  induction l as [|t l IH]; intros H; [reflexivity|].
  change (normalized (t :: l))
    with (sip_to_buy (upper_symbol t) :: normalized l).
  cbn [map filter]. rewrite total_cons.
  destruct (H t (or_introl eq_refl)) as [Hb Hp].
  destruct (not_purchase_normalized t Hb Hp) as [_ ->].
  rewrite IH by (intros u Hu; apply H; now right).
  destruct (is_sell t); cbn [map]; rewrite ?total_cons;
    unfold Num.real; ring.
Qed.

Lemma no_purchase_group (tx : list transaction) (k : key) :
  (forall t, In t tx -> group_key t = k ->
     txn_type t <> "BUY"%string /\ txn_type t <> "SIP"%string) ->
  group tx_key k (filter is_buy (normalized tx)) = [].
Proof.
  intros H. rewrite group_buys, group_normalized.
  apply filter_none. intros r Hr. apply in_normalized in Hr.
  destruct Hr as (t & Ht & ->). apply in_group in Ht. destruct Ht as [Ht Hk].
  destruct (H t Ht Hk) as [Hb Hp].
  apply (not_purchase_normalized t Hb Hp).
Qed.

(** X5: a (symbol, asset_type) key with no BUY or SIP row (sales without
    a recorded purchase) has, in every position of that key, units equal
    to minus the units sold, avg_cost = 0, invested = 0, pnl_pct absent,
    and pnl equal to value: the whole value counts as profit. *)
Theorem sales_without_purchase (yf : Pricing.market)
    (tx : list transaction) (k : key) :
  In k (map group_key tx) ->
  (forall t, In t tx -> group_key t = k ->
     txn_type t <> "BUY"%string /\ txn_type t <> "SIP"%string) ->
  exists out,
    holdings yf tx = Some out
    /\ (exists p, In p out /\ pos_key p = k)
    /\ forall p, In p out -> pos_key p = k ->
         Position.units p
         = - Num.total (map units (filter is_sell (group group_key k tx)))
         /\ Position.avg_cost p = 0
         /\ Position.invested p = 0
         /\ Position.pnl_pct p = None
         /\ Position.pnl p = Position.value p.
Proof.
  intros Hk H. destruct tx as [|t0 tx]; [destruct Hk|].
  eexists. split; [apply holdings_cons|]. split.
  - exists (position_of yf (net_of (normalized (t0 :: tx)) k)). split.
    + apply in_holdings. exists k. split; [|reflexivity].
      now rewrite keys_normalized.
    + apply position_of_key.
  - intros p Hp Hpk. apply in_holdings in Hp. destruct Hp as (k' & _ & ->).
    rewrite position_of_key in Hpk. subst k'.
    unfold position_of, valuation, net_of.
    cbn [Position.units Position.avg_cost Position.invested Position.pnl_pct
         Position.pnl Position.value fst snd
         Net.units Net.avg_cost Net.invested].
    rewrite (no_purchase_group (t0 :: tx) k H).
    cbn [map Num.total fold_right Net.symbol]. rewrite gt0_zero.
    split; [|split; [reflexivity|split; [reflexivity|split; [reflexivity|]]]].
    + rewrite group_normalized. apply signed_units_of_sales.
      intros t Ht. apply in_group in Ht. destruct Ht as [Ht Hkt].
      now apply H.
    + destruct (last_of yf (fst k)) as [l|]; cbn [option_map]; [|reflexivity].
      f_equal. unfold Num.real. ring.
Qed.

End SellOnly.

(* ------------------------------------------------------------------ *)
(** * The Dashboard metrics *)

Section DashboardFacts.

Import Pandas App Ledger Dashboard.

Open Scope Qc_scope.

Lemma shown_eq (yf : Pricing.market) (tx : list transaction) :
  shown yf tx = option_map metrics_of (holdings yf tx).
Proof.
  unfold shown, dashboard, holdings, run, bind, ret.
  destruct (compute_holdings yf tx []) as [[e|out] log]; reflexivity.
Qed.

(** Every output row is the valued row of the group of some ledger row. *)
Lemma holdings_rows (yf : Pricing.market) (tx : list transaction)
    (out : list Position.t) (p : Position.t) :
  holdings yf tx = Some out -> In p out ->
  exists t, In t tx
    /\ p = position_of yf (net_of (normalized tx) (group_key t)).
Proof.
  destruct tx as [|t0 tx]; intros H Hp.
  - rewrite holdings_nil in H. inversion H. subst out. destruct Hp.
  - rewrite holdings_cons in H. inversion H. subst out.
    apply in_holdings in Hp. destruct Hp as (k & Hk & ->).
    rewrite keys_normalized in Hk. apply in_map_iff in Hk.
    destruct Hk as (t & <- & Ht). now exists t.
Qed.

Lemma nansum_all_missing (col : list (option Num.real)) :
  (forall x, In x col -> x = None) -> nansum col = 0.
Proof.
  intros H. unfold nansum. apply total_zeros.
  intros x Hx. apply in_map_iff in Hx. destruct Hx as (o & <- & Ho).
  now rewrite (H o Ho).
Qed.

(** X6: when the price lookup has no [last] for any symbol of the ledger
    (yfinance down, say), the Dashboard shows Portfolio Value 0 and Total
    P/L 0, and Return % is -100 as soon as anything was invested. *)
Theorem dashboard_without_prices (yf : Pricing.market)
    (tx : list transaction) :
  (forall t, In t tx -> last_of yf (str_upper (symbol t)) = None) ->
  exists m,
    shown yf tx = Some m
    /\ total_value m = 0
    /\ pnl m = 0
    /\ (0 < invested m -> pnl_pct m = - Num.lit 100).
Proof.
  intros H. rewrite shown_eq.
  destruct (holdings_total yf tx) as (out & Hout). rewrite Hout.
  eexists. split; [reflexivity|].
  assert (Hrow : forall p, In p out ->
                   Position.value p = None /\ Position.pnl p = None).
  { intros p Hp. destruct (holdings_rows yf tx out p Hout Hp) as (t & Ht & ->).
    assert (L : last_of yf (Net.symbol (net_of (normalized tx) (group_key t)))
                = None).
    { rewrite group_key_eq. apply H, Ht. }
    destruct (missing_price_row yf _ L) as (_ & Hv & Hp' & _). auto. }
  assert (V : nansum (map Position.value out) = 0).
  { apply nansum_all_missing. intros x Hx. apply in_map_iff in Hx.
    destruct Hx as (p & <- & Hp). apply Hrow, Hp. }
  assert (P : nansum (map Position.pnl out) = 0).
  { apply nansum_all_missing. intros x Hx. apply in_map_iff in Hx.
    destruct Hx as (p & <- & Hp). apply Hrow, Hp. }
  unfold metrics_of. cbn [total_value pnl invested pnl_pct].
  rewrite V, P.
  split; [now destruct (empty out)|]. split; [now destruct (empty out)|].
  intros Hpos. apply gt0_true_iff in Hpos. rewrite Hpos.
  destruct (empty out); unfold Num.real, Qcdiv; ring.
Qed.



Lemma normalized_row_kind (t : transaction) :
  is_buy (sip_to_buy (upper_symbol t)) = is_purchase t
  /\ units (sip_to_buy (upper_symbol t)) = units t
  /\ cost (sip_to_buy (upper_symbol t)) = cost t
  /\ (txn_type t <> "SELL"%string ->
      signed_units (sip_to_buy (upper_symbol t))
      = if is_purchase t then units t else 0).
Proof.
  unfold sip_to_buy, is_purchase, is_buy, signed_units.
  rewrite txn_type_upper_symbol.
  destruct (String.eqb (txn_type t) "SIP") eqn:P.
  - apply String.eqb_eq in P. rewrite P. cbn. repeat split.
  - rewrite txn_type_upper_symbol, orb_false_r.
    split; [reflexivity|]. split; [reflexivity|]. split; [reflexivity|].
    intros Hs. apply String.eqb_neq in Hs. now rewrite Hs.
Qed.






End DashboardFacts.

Section InvestedTotal.

Import Pandas App Ledger Dashboard.

Open Scope Qc_scope.

Lemma total_map_add {A} (f g : A -> Num.real) (l : list A) :
  Num.total (map (fun a => f a + g a) l)
  = Num.total (map f l) + Num.total (map g l).
Proof.
  induction l as [|a l IH]; cbn [map]; rewrite ?total_cons.
  - unfold Num.real. reflexivity.
  - rewrite IH. unfold Num.real. ring.
Qed.

(** Over distinct keys, exactly one is the key looked for. *)
Lemma total_one_key (k0 : key) (v : Num.real) (ks : list key) :
  NoDup ks -> In k0 ks ->
  Num.total (map (fun k => if key_eqb k0 k then v else 0) ks) = v.
Proof.
  induction 1 as [|k ks Hk Hnd IH]; intros Hin; [destruct Hin|].
  cbn [map]. rewrite total_cons.
  destruct (key_eqb k0 k) eqn:E.
  - apply key_eqb_eq in E. subst k.
    rewrite total_zeros; [apply Qcplus_0_r|].
    intros x Hx. apply in_map_iff in Hx. destruct Hx as (k' & <- & Hk').
    destruct (key_eqb k0 k') eqn:E'; [|reflexivity].
    apply key_eqb_eq in E'. subst k'. contradiction.
  - destruct Hin as [->|Hin]; [now rewrite key_eqb_refl in E|].
    rewrite (IH Hin). apply Qcplus_0_l.
Qed.

(** The sums over the groups add up to the sum over the frame. *)
Lemma total_by_group {A} (kf : A -> key) (f : A -> Num.real)
    (ks : list key) (l : list A) :
  NoDup ks -> (forall a, In a l -> In (kf a) ks) ->
  Num.total (map (fun k => Num.total (map f (group kf k l))) ks)
  = Num.total (map f l).
Proof.
  intros Hnd. induction l as [|a l IH]; intros Hin.
  - cbn. apply total_zeros. intros x Hx. apply in_map_iff in Hx.
    now destruct Hx as (k & <- & _).
  - cbn [map]. rewrite total_cons, <- IH by (intros b Hb; apply Hin; now right).
    rewrite <- (total_one_key (kf a) (f a) ks Hnd (Hin a (or_introl eq_refl))).
    rewrite <- total_map_add. f_equal. apply map_ext. intros k.
    unfold group. cbn [filter].
    destruct (key_eqb (kf a) k); [reflexivity | now rewrite Qcplus_0_l].
Qed.

Lemma one_asset_type_symbols (tx : list transaction) :
  (forall t t', In t tx -> In t' tx ->
     str_upper (symbol t) = str_upper (symbol t') ->
     asset_type t = asset_type t') ->
  NoDup (map fst (group_keys tx_key (normalized tx))).
Proof.
  intros H.
  assert (Inj : forall k k', In k (group_keys tx_key (normalized tx)) ->
                  In k' (group_keys tx_key (normalized tx)) ->
                  fst k = fst k' -> k = k').
  { intros k k' Hk Hk' E.
    rewrite in_group_keys, keys_normalized in Hk, Hk'.
    apply in_map_iff in Hk, Hk'.
    destruct Hk as (t & <- & Ht), Hk' as (t' & <- & Ht').
    rewrite !group_key_eq in *. cbn [fst] in E.
    now rewrite E, (H t t' Ht Ht' E). }
  pose proof (NoDup_group_keys tx_key (normalized tx)) as Hnd.
  revert Inj Hnd. generalize (group_keys tx_key (normalized tx)).
  induction l as [|k l IH]; intros Inj Hnd; cbn [map]; constructor.
  - intros Hin. apply in_map_iff in Hin. destruct Hin as (k' & E & Hk').
    assert (k' = k) by (apply Inj; [now right | now left | exact E]).
    subst k'. now inversion Hnd.
  - apply IH; [|now inversion Hnd].
    intros a b Ha Hb. apply Inj; now right.
Qed.

(** X9: when no symbol of the ledger is held under two asset types, the
    Dashboard's Invested is the sum of units * price + fees over the BUY
    and SIP rows of the ledger; SELL rows do not lower it. *)
Theorem dashboard_invested (yf : Pricing.market) (tx : list transaction) :
  (forall t t', In t tx -> In t' tx ->
     str_upper (symbol t) = str_upper (symbol t') ->
     asset_type t = asset_type t') ->
  exists m,
    shown yf tx = Some m
    /\ invested m = Num.total (map cost (filter is_purchase tx)).
Proof.
  intros H. rewrite shown_eq.
  destruct tx as [|t0 tx]; [eexists; split; reflexivity|].
  rewrite holdings_cons. eexists. split; [reflexivity|].
  set (df := normalized (t0 :: tx)).
  pose proof (one_asset_type_symbols (t0 :: tx) H) as Hnd. fold df in Hnd.
  assert (Hsym : NoDup (map Net.symbol (net_frame df))).
  { now rewrite <- net_frame_symbol_keys, map_map in Hnd. }
  unfold metrics_of. cbn [invested].
  unfold out_rows. fold df.
  rewrite (replicated_unique_aux _ _ Hsym)
    by (intros n Hn; now apply in_map).
  rewrite sorted_positions.
  assert (Hne : empty (map (position_of yf) (sort_by net_le (net_frame df)))
                = false).
  { destruct (sort_by net_le (net_frame df)) eqn:E; [|reflexivity].
    exfalso. apply (net_frame_nonempty (sip_to_buy (upper_symbol t0))
                      (normalized tx)).
    pose proof (sort_by_perm net_le (net_frame df)) as P. rewrite E in P.
    apply Permutation_nil in P. exact P. }
  rewrite Hne. unfold nansum. rewrite !map_map. cbn [fillna].
  rewrite (total_perm _ (map Net.invested (net_frame df)))
    by (change (fun x => Position.invested (position_of yf x))
          with Net.invested;
        apply Permutation_map, sort_by_perm).
  rewrite net_frame_eq, map_map.
  change (fun k => Net.invested (net_of df k))
    with (fun k => Num.total (map cost (group tx_key k (filter is_buy df)))).
  rewrite (total_by_group tx_key cost (group_keys tx_key df)
             (filter is_buy df) (NoDup_group_keys tx_key df)).
  - unfold df, normalized. rewrite map_map.
    generalize (t0 :: tx). intros l.
    induction l as [|t l IH]; [reflexivity|].
    cbn [map filter]. destruct (normalized_row_kind t) as (K & _ & C & _).
    rewrite K. destruct (is_purchase t); cbn [map]; rewrite ?total_cons, ?C;
      now rewrite IH.
  - intros a Ha. apply in_group_keys, in_map.
    apply filter_In in Ha. apply Ha.
Qed.

End InvestedTotal.

(* ------------------------------------------------------------------ *)
(** * db.py: the transactions table *)

Section UpperFacts.

Import Pandas.

Lemma upper_char_idem (c : ascii) : upper_char (upper_char c) = upper_char c.
Proof. destruct c as [[] [] [] [] [] [] [] []]; reflexivity. Qed.

Lemma str_upper_idem (s : string) : str_upper (str_upper s) = str_upper s.
Proof.
  induction s as [|c s IH]; cbn [str_upper]; [reflexivity|].
  now rewrite upper_char_idem, IH.
Qed.

End UpperFacts.

Section TransactionsTable.

Import Pandas App Db.

Open Scope Z_scope.

Lemma below_next_id {A} (idf : A -> Z) (tbl : list A) (r : A) :
  In r tbl -> idf r < next_id idf tbl.
Proof.
  unfold next_id. induction tbl as [|x tbl IH]; intros H; [destruct H|].
  cbn [map fold_right]. destruct H as [->|H]; [lia|].
  specialize (IH H). lia.
Qed.

Lemma tx_le_total (a b : transaction) : tx_le a b = false -> tx_le b a = true.
Proof.
  unfold tx_le. rewrite (String.compare_antisym (date b) (date a)).
  destruct (String.compare (date a) (date b)); cbn; try congruence.
  intros H. apply Z.leb_gt in H. apply Z.leb_le. now apply Z.lt_le_incl.
Qed.

Lemma in_fetch_tx (tbl : list transaction) (uid : Z) (r : transaction) :
  In r (fetch_tx tbl uid) <-> In r tbl /\ user_id r = uid.
Proof. unfold fetch_tx. now rewrite in_sort_by, filter_In, Z.eqb_eq. Qed.

(** X10: [fetch_tx] returns the rows of the user, all of them and no
    others, in ascending order of date and, within a date, of id. *)
Theorem fetch_tx_ordered (tbl : list transaction) (uid : Z) :
  Sorted (fun a b => tx_le a b = true) (fetch_tx tbl uid)
  /\ Permutation (fetch_tx tbl uid)
       (filter (fun t => user_id t =? uid) tbl).
Proof.
  split.
  - apply sort_by_sorted, tx_le_total.
  - apply sort_by_perm.
Qed.


End TransactionsTable.

Section LedgerInvariant.

Import Pandas App Db.

Open Scope Z_scope.

Lemma ledger_of_snoc (qs : list tx_request) (q : tx_request) :
  ledger_of (qs ++ [q]) = insert_request (ledger_of qs) q.
Proof. unfold ledger_of. now rewrite fold_left_app. Qed.

Lemma upper_symbol_fixed (t : transaction) :
  str_upper (symbol t) = symbol t -> upper_symbol t = t.
Proof.
  destruct t. unfold upper_symbol, with_symbol. cbn. now intros ->.
Qed.

Lemma ledger_rows (qs : list tx_request) :
  Forall (fun t => str_upper (symbol t) = symbol t) (ledger_of qs)
  /\ NoDup (map id (ledger_of qs)).
Proof.
  induction qs as [|q qs [IH1 IH2]] using rev_ind.
  - split; constructor.
  - rewrite ledger_of_snoc. unfold insert_request, insert_tx. split.
    + apply Forall_app. split; [exact IH1|].
      constructor; [|constructor]. cbn. apply str_upper_idem.
    + rewrite map_app. cbn [map id].
      apply (Permutation_NoDup
               (l := next_id id (ledger_of qs) :: map id (ledger_of qs))).
      * apply Permutation_cons_append.
      * constructor; [|exact IH2].
        intros H. apply in_map_iff in H. destruct H as (r & E & Hr).
        pose proof (below_next_id id (ledger_of qs) r Hr). lia.
Qed.

(** Dropping rows keeps a column free of repeats. *)
Lemma NoDup_map_filter {A B} (col : A -> B) (keep : A -> bool)
    (rows : list A) (Hcol : NoDup (map col rows)) :
  NoDup (map col (filter keep rows)).
Proof.
  induction rows as [|x rows IH]; cbn [map filter]; [constructor|].
  inversion Hcol as [|y ys Hx Hl]; subst.
  destruct (keep x); [|now apply IH].
  cbn [map]. constructor; [|now apply IH].
  intros Hin. apply Hx. apply in_map_iff in Hin.
  destruct Hin as (z & E & Hz). apply filter_In in Hz.
  apply in_map_iff. exists z. tauto.
Qed.

(** X12: in a table filled by [insert_tx] alone, the rows [fetch_tx]
    reads back have distinct ids and uppercase symbols, so the
    uppercasing [compute_holdings] does first changes no row of a ledger
    read from the table. *)
Theorem stored_ledger_is_uppercase (qs : list tx_request) (uid : Z) :
  let tx := fetch_tx (ledger_of qs) uid in
  NoDup (map id tx)
  /\ map upper_symbol tx = tx
  /\ normalized tx = map sip_to_buy tx.
Proof.
  intros tx. destruct (ledger_rows qs) as [Hup Hid].
  assert (U : map upper_symbol tx = tx).
  { rewrite <- (map_id tx) at 2. apply map_ext_in. intros t Ht.
    apply upper_symbol_fixed. apply in_fetch_tx in Ht.
    rewrite Forall_forall in Hup. apply Hup, Ht. }
  split; [|split; [exact U|]].
  - unfold tx, fetch_tx.
    apply (Permutation_NoDup
             (l := map id (filter (fun t => user_id t =? uid)
                             (ledger_of qs)))).
    + apply Permutation_map, Permutation_sym, sort_by_perm.
    + now apply NoDup_map_filter.
  - unfold normalized. now rewrite U.
Qed.

End LedgerInvariant.

(* ------------------------------------------------------------------ *)
(** * db.py: the watchlist *)

Section WatchlistTable.

Import Pandas Db.

Open Scope Z_scope.

Lemma watch_is_iff (uid : Z) (sym : string) (r : Watch.row) :
  watch_is uid sym r = true <-> watch_pair r = (uid, sym).
Proof.
  unfold watch_is, watch_pair.
  rewrite andb_true_iff, Z.eqb_eq, String.eqb_eq.
  split; [intros [-> ->]; reflexivity | intros H; inversion H; auto].
Qed.

Lemma watch_absent (uid : Z) (sym : string) (tbl : list Watch.row) :
  existsb (watch_is uid sym) tbl = false
  <-> ~ In (uid, sym) (map watch_pair tbl).
Proof.
  rewrite <- not_true_iff_false, existsb_exists, in_map_iff.
  split; intros H (r & H1 & H2); apply H; exists r.
  - split; [exact H2 | now apply watch_is_iff].
  - split; [now apply watch_is_iff | exact H1].
Qed.

Lemma add_watch_pairs (tbl : list Watch.row) (now : string) (uid : Z)
    (s : string) (a : option string) :
  NoDup (map watch_pair tbl) ->
  NoDup (map watch_pair (add_watch tbl now uid s a)).
Proof.
  intros H. unfold add_watch.
  destruct (existsb (watch_is uid (str_upper s)) tbl) eqn:E; [exact H|].
  rewrite map_app. cbn [map].
  apply (Permutation_NoDup
           (l := (uid, str_upper s) :: map watch_pair tbl)).
  - apply Permutation_cons_append.
  - constructor; [now apply watch_absent | exact H].
Qed.

Lemma watchlist_of_snoc (ops : list watch_op) (op : watch_op) :
  watchlist_of (ops ++ [op]) = watch_step (watchlist_of ops) op.
Proof. unfold watchlist_of. now rewrite fold_left_app. Qed.

Lemma watchlist_pairs (ops : list watch_op) :
  NoDup (map watch_pair (watchlist_of ops)).
Proof.
  induction ops as [|op ops IH] using rev_ind; [constructor|].
  rewrite watchlist_of_snoc. destruct op as [now uid s a|uid s]; cbn.
  - now apply add_watch_pairs.
  - unfold del_watch. now apply NoDup_map_filter.
Qed.

Lemma user_symbols_distinct (tbl : list Watch.row) (uid : Z) :
  NoDup (map watch_pair tbl) ->
  NoDup (map Watch.symbol (filter (fun r => Watch.user_id r =? uid) tbl)).
Proof.
  induction tbl as [|r tbl IH]; cbn [map filter]; intros H; [constructor|].
  inversion H as [|y ys Hr Hl]; subst.
  destruct (Watch.user_id r =? uid) eqn:E; [|now apply IH].
  cbn [map]. constructor; [|now apply IH].
  intros Hin. apply Hr. apply in_map_iff in Hin.
  destruct Hin as (z & Ez & Hz). apply filter_In in Hz.
  destruct Hz as [Hz Hu]. apply in_map_iff. exists z. split; [|exact Hz].
  apply Z.eqb_eq in E, Hu. unfold watch_pair. congruence.
Qed.

(** X13: whatever series of [add_watch] and [del_watch] calls built the
    table, [get_watchlist] lists no symbol twice and lists the symbols in
    ascending order; the Watchlist page therefore asks [price_snapshot]
    for each symbol once. *)
Theorem watchlist_symbols_distinct (ops : list watch_op) (uid : Z) :
  let wl := get_watchlist (watchlist_of ops) uid in
  NoDup (map (fun e => fst (fst e)) wl)
  /\ Sorted (fun a b => String.leb (fst (fst a)) (fst (fst b)) = true) wl.
Proof.
  intros wl. split.
  - unfold wl, get_watchlist.
    apply (Permutation_NoDup
             (l := map Watch.symbol
                     (filter (fun r => Watch.user_id r =? uid)
                        (watchlist_of ops)))).
    + rewrite <- (map_map
                    (fun r => (Watch.symbol r, Watch.alias r,
                               Watch.created_at r))
                    (fun e => fst (fst e))).
      apply Permutation_map, Permutation_sym, sort_by_perm.
    + apply user_symbols_distinct, watchlist_pairs.
  - apply (sort_by_sorted
             (fun a b : string * option string * string =>
                String.leb (fst (fst a)) (fst (fst b)))).
    intros a b. apply string_leb_total.
Qed.

(** X14: [add_watch] of a symbol the user already watches, in whatever
    letter case, leaves the table as it is: no second row, and the alias
    and date of the first call stay. *)
Theorem add_watch_twice (tbl : list Watch.row) (now now' : string) (uid : Z)
    (s s' : string) (a a' : option string) :
  str_upper s' = str_upper s ->
  add_watch (add_watch tbl now uid s a) now' uid s' a'
  = add_watch tbl now uid s a.
Proof.
  intros E. unfold add_watch at 1. rewrite E.
  assert (H : existsb (watch_is uid (str_upper s))
                (add_watch tbl now uid s a) = true).
  { unfold add_watch.
    destruct (existsb (watch_is uid (str_upper s)) tbl) eqn:X; [exact X|].
    rewrite existsb_app. cbn [existsb]. unfold watch_is at 2. cbn.
    now rewrite Z.eqb_refl, String.eqb_refl, orb_true_r. }
  now rewrite H.
Qed.

Lemma in_get_watchlist (tbl : list Watch.row) (uid : Z)
    (e : string * option string * string) :
  In e (get_watchlist tbl uid)
  <-> exists r, In r tbl /\ Watch.user_id r = uid
                /\ e = (Watch.symbol r, Watch.alias r, Watch.created_at r).
Proof.
  unfold get_watchlist. rewrite in_sort_by, in_map_iff. split.
  - intros (r & <- & Hr). apply filter_In in Hr. destruct Hr as [Hr Hu].
    apply Z.eqb_eq in Hu. now exists r.
  - intros (r & Hr & Hu & ->). exists r. split; [reflexivity|].
    apply filter_In. split; [exact Hr | now apply Z.eqb_eq].
Qed.

(** X15: [del_watch] removes from a user's watchlist the symbol given, in
    whatever letter case it is typed, and nothing else; the watchlists of
    the other users stay as they were. *)
Theorem del_watch_effect (tbl : list Watch.row) (uid uid' : Z) (s : string)
    (e : string * option string * string) :
  In e (get_watchlist (del_watch tbl uid s) uid')
  <-> In e (get_watchlist tbl uid')
      /\ ~ (uid' = uid /\ fst (fst e) = str_upper s).
Proof.
  rewrite !in_get_watchlist. unfold del_watch. split.
  - intros (r & Hr & Hu & ->). apply filter_In in Hr. destruct Hr as [Hr Hn].
    split; [now exists r|]. cbn [fst]. intros [-> Es].
    apply negb_true_iff in Hn.
    assert (W : watch_is uid (str_upper s) r = true).
    { apply watch_is_iff. unfold watch_pair. congruence. }
    congruence.
  - intros [(r & Hr & Hu & ->) Hn]. exists r.
    split; [|split; [exact Hu | reflexivity]].
    apply filter_In. split; [exact Hr|]. apply negb_true_iff.
    destruct (watch_is uid (str_upper s) r) eqn:W; [|reflexivity].
    apply watch_is_iff in W. unfold watch_pair in W. inversion W.
    exfalso. apply Hn. cbn [fst]. split; congruence.
Qed.

(** X16: adding a symbol the user does not watch and deleting it again,
    in whatever letter case, gives back the table as it was. *)
Theorem add_then_del_watch (tbl : list Watch.row) (now : string) (uid : Z)
    (s s' : string) (a : option string) :
  str_upper s' = str_upper s ->
  ~ In (uid, str_upper s) (map watch_pair tbl) ->
  del_watch (add_watch tbl now uid s a) uid s' = tbl.
Proof.
  intros E H. unfold add_watch, del_watch. rewrite E.
  rewrite (proj2 (watch_absent uid (str_upper s) tbl) H).
  rewrite filter_app. cbn [filter]. unfold watch_is at 2. cbn.
  rewrite Z.eqb_refl, String.eqb_refl. cbn. rewrite app_nil_r.
  induction tbl as [|r tbl IH]; [reflexivity|].
  cbn [filter map] in *.
  destruct (watch_is uid (str_upper s) r) eqn:W.
  - exfalso. apply H. left. now apply watch_is_iff.
  - cbn. f_equal. apply IH. intros X. apply H. now right.
Qed.

End WatchlistTable.

(* ------------------------------------------------------------------ *)
(** * db.py: messages, posts, users, inquiries *)

Section MessagesTable.

Import Pandas Db.

Open Scope Z_scope.

(** X17: after [mark_all_seen] the count of unread client messages is 0,
    and no message was added, dropped or reworded. *)
Theorem mark_all_seen_clears (tbl : list Msg.row) :
  unread_count (mark_all_seen tbl) = 0
  /\ map (fun r => (Msg.id r, Msg.user_id r, Msg.role r, Msg.text r,
                    Msg.created_at r))
         (mark_all_seen tbl)
     = map (fun r => (Msg.id r, Msg.user_id r, Msg.role r, Msg.text r,
                      Msg.created_at r))
           tbl.
Proof.
  unfold unread_count, mark_all_seen. split.
  - rewrite (filter_none unread); [reflexivity|].
    intros r Hr. apply in_map_iff in Hr. destruct Hr as (x & <- & _).
    destruct (unread x) eqn:E; [|exact E].
    unfold unread. cbn. apply andb_false_r.
  - rewrite map_map. apply map_ext. intros r. now destruct (unread r).
Qed.

(** X18: [add_message] raises the count of unread client messages by one
    when the role is "user" and leaves it as it is for any other role. *)
Theorem add_message_unread (tbl : list Msg.row) (now : string) (uid : Z)
    (role text : string) :
  unread_count (add_message tbl now uid role text)
  = unread_count tbl + (if String.eqb role "user" then 1 else 0).
Proof.
  unfold unread_count, add_message. rewrite filter_app, length_app.
  cbn [filter]. unfold unread at 2. cbn.
  destruct (String.eqb role "user"); cbn; lia.
Qed.

End MessagesTable.

Section PostsTable.

Import Pandas Db.

Open Scope Z_scope.

(** X19: [update_post_status] changes the status and the update time of
    the post with the id given when the user given owns it, and nothing
    else in the table; called by a user who does not own that post it
    leaves the table as it is. *)
Theorem update_post_status_owner (tbl : list Post.row) (now : string)
    (post_id uid : Z) (status : string) :
  map (fun r => (Post.id r, Post.user_id r, Post.title r, Post.content r,
                 Post.symbols r, Post.created_at r))
      (update_post_status tbl now post_id uid status)
  = map (fun r => (Post.id r, Post.user_id r, Post.title r, Post.content r,
                   Post.symbols r, Post.created_at r))
        tbl
  /\ (forall r, In r tbl -> ~ (Post.id r = post_id /\ Post.user_id r = uid) ->
        In r (update_post_status tbl now post_id uid status))
  /\ ((forall r, In r tbl -> Post.id r = post_id -> Post.user_id r <> uid) ->
      update_post_status tbl now post_id uid status = tbl).
Proof.
  unfold update_post_status. split; [|split].
  - rewrite map_map. apply map_ext. intros r.
    now destruct ((Post.id r =? post_id) && (Post.user_id r =? uid)).
  - intros r Hr Hn. apply in_map_iff. exists r. split; [|exact Hr].
    destruct ((Post.id r =? post_id) && (Post.user_id r =? uid)) eqn:E;
      [|reflexivity].
    apply andb_true_iff in E. rewrite !Z.eqb_eq in E. tauto.
  - intros H. rewrite <- (map_id tbl) at 2. apply map_ext_in. intros r Hr.
    destruct ((Post.id r =? post_id) && (Post.user_id r =? uid)) eqn:E;
      [|reflexivity].
    apply andb_true_iff in E. rewrite !Z.eqb_eq in E.
    destruct E as [E1 E2]. now destruct (H r Hr E1).
Qed.

(** X20: a post saved as a draft is not in the published feed; once its
    owner sets its status to "published" it is, with the new update
    time. *)
Theorem publish_post (tbl : list Post.row) (now now' : string) (uid : Z)
    (title content symbols : string) :
  let pid := next_id Post.id tbl in
  let saved := add_post tbl now uid title content symbols "draft" in
  (forall r, In r (fetch_posts saved None true) -> Post.id r <> pid)
  /\ exists r,
       In r (fetch_posts (update_post_status saved now' pid uid "published")
               None true)
       /\ Post.id r = pid /\ Post.user_id r = uid /\ Post.title r = title
       /\ Post.content r = content /\ Post.updated_at r = now'.
Proof.
  intros pid saved. unfold fetch_posts. split.
  - intros r Hr. rewrite in_sort_by in Hr. apply filter_In in Hr.
    destruct Hr as [Hr Hp]. unfold saved, add_post in Hr.
    apply in_app_or in Hr. destruct Hr as [Hr|[<-|[]]].
    + pose proof (below_next_id Post.id tbl r Hr). unfold pid. lia.
    + discriminate Hp.
  - eexists. split.
    + rewrite in_sort_by. apply filter_In. split.
      * unfold update_post_status, saved, add_post.
        rewrite map_app. apply in_or_app. right. cbn [map].
        cbn [Post.id Post.user_id]. fold pid.
        rewrite !Z.eqb_refl. cbn [andb]. left. reflexivity.
      * reflexivity.
    + cbn. auto.
Qed.

End PostsTable.

Section UsersTable.

Import Pandas Db.

Open Scope Z_scope.

Lemma find_app {A} (p : A -> bool) (l l' : list A) :
  find p (l ++ l') = match find p l with Some x => Some x | None => find p l' end.
Proof.
  induction l as [|x l IH]; cbn; [reflexivity|]. now destruct (p x).
Qed.

Lemma find_none_existsb {A} (p : A -> bool) (l : list A) :
  find p l = None <-> existsb p l = false.
Proof.
  induction l as [|x l IH]; cbn; [tauto|].
  destruct (p x); cbn; [split; discriminate | exact IH].
Qed.

(** X21: [create_user] raises IntegrityError exactly when
    [get_user_by_username] already finds the username; otherwise the new
    user is what [get_user_by_username] then returns for that username,
    and every other username resolves as before. *)
Theorem create_user_then_get (tbl : list User.row) (now : string)
    (full_name username email phone password_hash salt : string) :
  match create_user tbl now full_name username email phone password_hash salt
  with
  | inl IntegrityError => get_user_by_username tbl username <> None
  | inr tbl' =>
      get_user_by_username tbl username = None
      /\ get_user_by_username tbl' username
         = Some {| User.id := next_id User.id tbl;
                   User.full_name := full_name; User.username := username;
                   User.email := email; User.phone := phone;
                   User.password_hash := password_hash; User.salt := salt;
                   User.created_at := now |}
      /\ forall other, other <> username ->
           get_user_by_username tbl' other = get_user_by_username tbl other
  end.
Proof.
  unfold create_user, get_user_by_username.
  destruct (existsb (fun r => String.eqb (User.username r) username) tbl)
    eqn:E.
  - intros H. apply find_none_existsb in H. congruence.
  - apply find_none_existsb in E. split; [exact E|]. split.
    + rewrite find_app, E. cbn. now rewrite String.eqb_refl.
    + intros other Ho. rewrite find_app.
      destruct (find (fun r => String.eqb (User.username r) other) tbl);
        [reflexivity|]. cbn.
      apply not_eq_sym, String.eqb_neq in Ho. now rewrite Ho.
Qed.

End UsersTable.

Section InquiriesTable.

Import Pandas Db.

Open Scope Z_scope.

Lemma inq_le_total (a b : Inq.row) :
  (Inq.id b <=? Inq.id a) = false -> (Inq.id a <=? Inq.id b) = true.
Proof. intros H. apply Z.leb_gt in H. apply Z.leb_le. lia. Qed.

(** X22: the inquiry just added is the first row [fetch_inquiries]
    returns. *)
Theorem newest_inquiry_first (tbl : list Inq.row) (now : string) (uid : Z)
    (name email phone message : string) :
  exists rest,
    fetch_inquiries (add_inquiry tbl now uid name email phone message)
    = {| Inq.id := next_id Inq.id tbl; Inq.user_id := uid; Inq.name := name;
         Inq.email := email; Inq.phone := phone; Inq.message := message;
         Inq.created_at := now |} :: rest.
Proof.
  set (new := {| Inq.id := next_id Inq.id tbl; Inq.user_id := uid;
                 Inq.name := name; Inq.email := email; Inq.phone := phone;
                 Inq.message := message; Inq.created_at := now |}).
  unfold fetch_inquiries, add_inquiry. fold new.
  pose proof (sort_by_sorted (fun a b => Inq.id b <=? Inq.id a) inq_le_total
                (tbl ++ [new])) as S.
  assert (T : Relations_1.Transitive
                (fun a b : Inq.row => (Inq.id b <=? Inq.id a) = true)).
  { intros a b c. rewrite !Z.leb_le. lia. }
  apply (Sorted_StronglySorted T) in S.
  assert (Hin : forall r,
            In r (sort_by (fun a b => Inq.id b <=? Inq.id a) (tbl ++ [new]))
            <-> In r tbl \/ r = new).
  { intros r. rewrite in_sort_by, in_app_iff. cbn. intuition. }
  destruct (sort_by (fun a b => Inq.id b <=? Inq.id a) (tbl ++ [new]))
    as [|h rest].
  - exfalso. apply (proj2 (Hin new)). now right.
  - exists rest. f_equal.
    destruct (proj1 (Hin h) (or_introl eq_refl)) as [Hh|Hh]; [|exact Hh].
    exfalso.
    assert (Hid : Inq.id new = next_id Inq.id tbl) by reflexivity.
    pose proof (below_next_id Inq.id tbl h Hh) as B.
    inversion S as [|x xs _ Hall]; subst x xs.
    assert (Hn : In new rest).
    { destruct (proj2 (Hin new) (or_intror eq_refl)) as [E|Hn]; [|exact Hn].
      rewrite E, Hid in B. lia. }
    rewrite Forall_forall in Hall. specialize (Hall new Hn).
    apply Z.leb_le in Hall. rewrite Hid in Hall. lia.
Qed.

End InquiriesTable.

(* ------------------------------------------------------------------ *)
(** * pricing.py: the durations of [history] *)

Section ChartsFacts.

Import Charts.

Open Scope string_scope.

(** X23: whatever the label, [history] asks yfinance for a period and an
    interval that are a pair of DURATION_MAP; a label that is not a key of
    the table is treated as "6 Months". *)
Theorem history_durations (duration_label : string) :
  In (duration_of duration_label) (map snd DURATION_MAP)
  /\ ((forall e, In e DURATION_MAP -> fst e <> duration_label) ->
      duration_of duration_label = duration_of "6 Months"
      /\ forall (row : Type) (yf : source row) (symbol : string),
           history yf symbol duration_label = history yf symbol "6 Months").
Proof.
  assert (D : duration_of "6 Months" = ("6mo", "1d")) by reflexivity.
  split.
  - unfold duration_of.
    destruct (find (fun e => String.eqb (fst e) duration_label) DURATION_MAP)
      as [e|] eqn:F.
    + apply find_some in F. apply in_map, F.
    + cbn. tauto.
  - intros H.
    assert (E : duration_of duration_label = ("6mo", "1d")).
    { unfold duration_of.
      destruct (find (fun e => String.eqb (fst e) duration_label) DURATION_MAP)
        as [e|] eqn:F; [|reflexivity].
      apply find_some in F. destruct F as [F1 F2].
      apply String.eqb_eq in F2. now destruct (H e F1). }
    split; [now rewrite E, D|].
    intros row yf symbol. unfold history. now rewrite E, D.
Qed.

End ChartsFacts.

(* ------------------------------------------------------------------ *)
(** * amfi.py: what the cache serves *)

Section AmfiFacts.

Import Amfi.

Open Scope Qc_scope.

Context {F : Type}.

Lemma ltb_true_iff (a b : Num.real) : ltb a b = true <-> a < b.
Proof.
  unfold ltb. rewrite Qclt_alt.
  destruct (a ?= b); split; congruence.
Qed.

(** X24: once a call of [get_amfi_df] has downloaded a frame at time
    [now0], every call without [force_refresh] made less than [ttl]
    seconds after [now0] returns that frame and does not download,
    whatever a download would give. *)
Theorem cache_serves_within_ttl (c : cache F) (now0 now1 : Num.real)
    (force0 : bool) (f : F) (load1 : download F) :
  downloaded (get_amfi_df c now0 force0 (Gives f)) = true ->
  now1 - now0 < ttl c ->
  get_amfi_df (cache_after (get_amfi_df c now0 force0 (Gives f)))
    now1 false load1
  = {| returned := Some f;
       cache_after := cache_after (get_amfi_df c now0 force0 (Gives f));
       downloaded := false |}.
Proof.
  intros Hd Ht. apply ltb_true_iff in Ht. unfold get_amfi_df in *.
  destruct (df c) as [old|].
  - destruct (negb force0 && ltb (now0 - ts c) (ttl c)); [discriminate Hd|].
    cbn. now rewrite Ht.
  - cbn. now rewrite Ht.
Qed.

(** X25: when the cache is empty, expired or bypassed by
    [force_refresh], [get_amfi_df] downloads; if the download fails the
    call fails too, an older frame is not served in its place, and the
    cache is left as it was. *)
Theorem failed_download_not_masked (c : cache F) (now : Num.real)
    (force_refresh : bool) :
  df c = None \/ force_refresh = true \/ ~ now - ts c < ttl c ->
  get_amfi_df c now force_refresh Fails
  = {| returned := None; cache_after := c; downloaded := true |}.
Proof.
  intros H. unfold get_amfi_df. destruct (df c) as [old|]; [|reflexivity].
  destruct H as [H|[->|H]]; [discriminate H | reflexivity |].
  destruct (ltb (now - ts c) (ttl c)) eqn:E.
  - apply ltb_true_iff in E. contradiction.
  - now rewrite andb_false_r.
Qed.

End AmfiFacts.

(* ------------------------------------------------------------------ *)
(** * app.py: the news feed *)

Section NewsFacts.

Import News.

Lemma in_drop_duplicates (seen : list string) (rows : list headline)
    (r : headline) :
  In r (drop_duplicate_titles seen rows) ->
  In r rows /\ ~ In (headline_title r) seen.
Proof.
  revert seen. induction rows as [|x rows IH]; intros seen H; [destruct H|].
  cbn [drop_duplicate_titles] in H.
  destruct (existsb (String.eqb (title (story x))) seen) eqn:E.
  - destruct (IH seen H). split; [now right | assumption].
  - destruct H as [<-|H].
    + split; [now left|]. intros Hin.
      assert (X : existsb (String.eqb (title (story x))) seen = true).
      { apply existsb_exists. exists (title (story x)).
        split; [exact Hin | apply String.eqb_refl]. }
      congruence.
    + destruct (IH _ H) as [H1 H2]. split; [now right|].
      intros Hin. apply H2. now right.
Qed.

Lemma drop_duplicates_distinct (seen : list string) (rows : list headline) :
  NoDup (map headline_title (drop_duplicate_titles seen rows)).
Proof.
  revert seen. induction rows as [|x rows IH]; intros seen; [constructor|].
  cbn [drop_duplicate_titles].
  destruct (existsb (String.eqb (title (story x))) seen); [apply IH|].
  cbn [map]. constructor; [|apply IH].
  intros Hin. apply in_map_iff in Hin. destruct Hin as (r & E & Hr).
  apply in_drop_duplicates in Hr. destruct Hr as [_ Hr].
  apply Hr. rewrite E. now left.
Qed.

Lemma drop_duplicates_keeps_titles (seen : list string)
    (rows : list headline) (r : headline) :
  In r rows -> ~ In (headline_title r) seen ->
  exists r', In r' (drop_duplicate_titles seen rows)
             /\ headline_title r' = headline_title r.
Proof.
  revert seen. induction rows as [|x rows IH]; intros seen H Hs; [destruct H|].
  cbn [drop_duplicate_titles].
  destruct (existsb (String.eqb (title (story x))) seen) eqn:E.
  - destruct H as [->|H].
    + exfalso. apply Hs. apply existsb_exists in E.
      destruct E as (t & Ht & Et). apply String.eqb_eq in Et.
      unfold headline_title. now rewrite Et.
    + apply (IH seen H Hs).
  - destruct H as [->|H]; [exists r; split; [now left | reflexivity]|].
    destruct (string_dec (headline_title r) (headline_title x)) as [Eq|Ne].
    + exists x. split; [now left | now symmetry].
    + destruct (IH (title (story x) :: seen) H) as (r' & H1 & H2).
      * intros [X|X]; [apply Ne; now symmetry | now apply Hs].
      * exists r'. split; [now right | exact H2].
Qed.

Lemma drop_duplicates_length (seen : list string) (rows : list headline) :
  (List.length (drop_duplicate_titles seen rows) <= List.length rows)%nat.
Proof.
  revert seen. induction rows as [|x rows IH]; intros seen; [apply le_n|].
  cbn [drop_duplicate_titles].
  destruct (existsb (String.eqb (title (story x))) seen); cbn [List.length].
  - specialize (IH seen). lia.
  - specialize (IH (title (story x) :: seen)). lia.
Qed.

Lemma read_rss_length (parse : parser) (url : string) (limit : nat) :
  (List.length (read_rss parse url limit) <= limit)%nat.
Proof.
  unfold read_rss. destruct (parse url) as [f|]; cbn [List.length]; [|lia].
  rewrite length_map. apply firstn_le_length.
Qed.

(** X26: the frame [aggregate_news] returns has no title twice and at
    most 48 rows (four feeds, twelve entries each), whatever the feeds
    hold and whichever of them fail. *)
Theorem aggregate_news_distinct (parse : parser) :
  NoDup (map (fun h => title (story h)) (aggregate_news parse))
  /\ (List.length (aggregate_news parse) <= 48)%nat.
Proof.
  split; [apply drop_duplicates_distinct|].
  unfold aggregate_news.
  eapply Nat.le_trans; [apply drop_duplicates_length|].
  unfold gathered, NEWS_FEEDS. cbn [flat_map fst snd].
  rewrite !length_app, !length_map. cbn [List.length].
  repeat match goal with
         | |- context [List.length (read_rss parse ?u 12)] =>
             let H := fresh in
             pose proof (read_rss_length parse u 12) as H;
             generalize dependent (List.length (read_rss parse u 12)); intros
         end.
  lia.
Qed.

(** X27: every row of [aggregate_news] is a row read from one of the
    feeds, under the category of that feed, and every title read from a
    feed is the title of a row of [aggregate_news]: removing duplicates
    loses no title. *)
Theorem aggregate_news_covers (parse : parser) :
  (forall h, In h (aggregate_news parse) -> In h (gathered parse NEWS_FEEDS))
  /\ (forall h, In h (gathered parse NEWS_FEEDS) ->
        exists h', In h' (aggregate_news parse)
                   /\ title (story h') = title (story h)).
Proof.
  split.
  - intros h Hh. now apply in_drop_duplicates in Hh.
  - intros h Hh.
    apply (drop_duplicates_keeps_titles [] _ h Hh). intros [].
Qed.

End NewsFacts.

(* ------------------------------------------------------------------ *)
(** * The further theorems at the example ledgers and tables *)

Section WorkedMore.

Import Pandas App Ledger Dashboard Db.

Open Scope string_scope.

Lemma holdings_ledger_order_witness :
  run (compute_holdings Examples.aapl_only (rev Examples.two_asset_types))
  = run (compute_holdings Examples.aapl_only Examples.two_asset_types).
Proof.
  apply (holdings_ledger_order Examples.aapl_only
           Examples.two_asset_types (rev Examples.two_asset_types)).
  apply perm_swap.
Defined.

Lemma sell_keeps_cost_basis_witness :
  exists out out',
    holdings Examples.aapl_only [Scenes.aapl_buy] = Some out
    /\ holdings Examples.offline ([Scenes.aapl_buy] ++ [Examples.sell_4])
       = Some out'
    /\ map pos_key out' = map pos_key out
    /\ map Position.avg_cost out' = map Position.avg_cost out
    /\ map Position.invested out' = map Position.invested out
    /\ map Position.units out'
       = map (fun p => if key_eqb (pos_key p) (group_key Examples.sell_4)
                       then (Position.units p - units Examples.sell_4)%Qc
                       else Position.units p) out.
Proof.
  apply (sell_keeps_cost_basis Examples.aapl_only Examples.offline
           [Scenes.aapl_buy] Examples.sell_4).
  - reflexivity.
  - left. reflexivity.
Defined.

Lemma buy_adds_to_basis_witness :
  exists out out',
    holdings Examples.aapl_only [Scenes.aapl_buy] = Some out
    /\ holdings Examples.offline ([Scenes.aapl_buy] ++ [Scenes.aapl_sip])
       = Some out'
    /\ map pos_key out' = map pos_key out
    /\ map Position.units out'
       = map (fun p => if key_eqb (pos_key p) (group_key Scenes.aapl_sip)
                       then (Position.units p + units Scenes.aapl_sip)%Qc
                       else Position.units p) out
    /\ map Position.invested out'
       = map (fun p => if key_eqb (pos_key p) (group_key Scenes.aapl_sip)
                       then (Position.invested p
                             + (units Scenes.aapl_sip * price Scenes.aapl_sip
                                + fees Scenes.aapl_sip))%Qc
                       else Position.invested p) out.
Proof.
  apply (buy_adds_to_basis Examples.aapl_only Examples.offline
           [Scenes.aapl_buy] Scenes.aapl_sip).
  - right. reflexivity.
  - left. reflexivity.
Defined.

Lemma sales_without_purchase_witness :
  exists out,
    holdings Scenes.all_priced Scenes.short_sale = Some out
    /\ (exists p, In p out /\ pos_key p = ("TSLA", "stock"))
    /\ forall p, In p out -> pos_key p = ("TSLA", "stock") ->
         Position.units p
         = (- Num.total
                (map units
                   (filter is_sell
                      (group group_key ("TSLA", "stock") Scenes.short_sale))))%Qc
         /\ Position.avg_cost p = 0%Qc
         /\ Position.invested p = 0%Qc
         /\ Position.pnl_pct p = None
         /\ Position.pnl p = Position.value p.
Proof.
  apply (sales_without_purchase Scenes.all_priced Scenes.short_sale
           ("TSLA", "stock")).
  - left. reflexivity.
  - intros t [<-|[<-|[]]] E.
    + split; discriminate.
    + discriminate E.
Defined.

Lemma dashboard_without_prices_witness :
  exists m,
    shown Examples.offline Examples.buy_then_sell = Some m
    /\ total_value m = 0%Qc
    /\ pnl m = 0%Qc
    /\ ((0 < invested m)%Qc -> pnl_pct m = (- Num.lit 100)%Qc).
Proof.
  apply (dashboard_without_prices Examples.offline Examples.buy_then_sell).
  intros t _. reflexivity.
Defined.





Lemma dashboard_invested_witness :
  exists m,
    shown Examples.aapl_only Examples.buy_then_sell = Some m
    /\ invested m
       = Num.total (map cost (filter is_purchase Examples.buy_then_sell)).
Proof.
  apply (dashboard_invested Examples.aapl_only Examples.buy_then_sell).
  intros t t' [<-|[<-|[<-|[]]]] [<-|[<-|[<-|[]]]] _; reflexivity.
Defined.

Lemma add_watch_twice_witness :
  add_watch (add_watch [] "2024-01-02T00:00:00" 1 "aapl" (Some "Apple"))
    "2024-01-03T00:00:00" 1 "AAPL" None
  = add_watch [] "2024-01-02T00:00:00" 1 "aapl" (Some "Apple").
Proof.
  apply (add_watch_twice [] "2024-01-02T00:00:00" "2024-01-03T00:00:00" 1
           "aapl" "AAPL" (Some "Apple") None).
  reflexivity.
Defined.

Lemma add_then_del_watch_witness :
  del_watch (add_watch [] "2024-01-02T00:00:00" 1 "aapl" None) 1 "Aapl" = [].
Proof.
  apply (add_then_del_watch [] "2024-01-02T00:00:00" 1 "aapl" "Aapl" None).
  - reflexivity.
  - intros [].
Defined.

Lemma cache_serves_within_ttl_witness :
  Amfi.get_amfi_df
    (Amfi.cache_after
       (Amfi.get_amfi_df Scenes.cold_cache (Num.lit 1000) false
          (Amfi.Gives ["Fund A"])))
    (Num.lit 1500) false Amfi.Fails
  = {| Amfi.returned := Some ["Fund A"];
       Amfi.cache_after :=
         Amfi.cache_after
           (Amfi.get_amfi_df Scenes.cold_cache (Num.lit 1000) false
              (Amfi.Gives ["Fund A"]));
       Amfi.downloaded := false |}.
Proof.
  apply (cache_serves_within_ttl Scenes.cold_cache (Num.lit 1000)
           (Num.lit 1500) false ["Fund A"] Amfi.Fails); reflexivity.
Defined.

Lemma failed_download_not_masked_witness :
  Amfi.get_amfi_df Scenes.cold_cache (Num.lit 1000) false Amfi.Fails
  = {| Amfi.returned := None; Amfi.cache_after := Scenes.cold_cache;
       Amfi.downloaded := true |}.
Proof.
  apply (failed_download_not_masked Scenes.cold_cache (Num.lit 1000) false).
  left. reflexivity.
Defined.

End WorkedMore.

(* ------------------------------------------------------------------ *)
(** * The columns of a lookup row and of a priced position *)

Section Columns.

Import Pandas App.

Open Scope Qc_scope.




End Columns.
